(** * Tappad OCR: camera capture, recognition and number extraction

    A shallow embedding of the TypeScript sources

    - [modules/camera/CameraManager.ts]  (module [Camera])
    - [modules/ocr/OCREngine.ts]         (module [OCR])
    - [utils/errors.ts]                  (module [Errors])
    - [modules/ui/OCRInterface.ts]       (module [UI])

    followed by the properties proved about them.

    Conventions of the embedding.

    - A JavaScript string that is scanned character by character (the
      recognised text) is a list of UTF-16 code units ([jsstring]); names
      and messages, which are only compared or displayed, are [string]s.
    - JavaScript numbers that are only carried around (confidence,
      coordinates) are rationals.
    - A method that mutates [this] takes the object and returns the new
      object; the externally visible effects it performs, in order, are
      returned as a list of [event]s.
    - A method that can throw returns a [completion]: either the value or
      the thrown value.  A promise of the Tesseract library may be
      rejected with any value, [null] and [undefined] included
      ([rejection]).
    - An [async] method is split at its [await]s where the interleaving
      with other handlers matters ([handleStartCamera]); the outcome of
      every external call is supplied by an environment record. *)

From Stdlib Require Import List Bool Arith NArith ZArith QArith Lia.
From Stdlib Require Import String Ascii DecimalString.
Import ListNotations.

Close Scope Q_scope.
Open Scope string_scope.
Open Scope list_scope.
Open Scope nat_scope.

Set Implicit Arguments.

(* ===================================================================== *)
(** ** JavaScript strings as sequences of UTF-16 code units *)
(* ===================================================================== *)

Module JsString.

Local Open Scope N_scope.

Definition code_unit := N.
Definition jsstring := list code_unit.

(** [\d] without the unicode flag: the ASCII digits. *)
Definition is_digit (c : code_unit) : bool :=
  (48 <=? c) && (c <=? 57).

(** [\s], and the characters removed by [String.prototype.trim]:
    ECMAScript WhiteSpace and LineTerminator. *)
Definition is_white_space (c : code_unit) : bool :=
  ((9 <=? c) && (c <=? 13))            (* TAB LF VT FF CR *)
  || (c =? 32)                         (* SPACE *)
  || (c =? 160)                        (* NO-BREAK SPACE *)
  || (c =? 5760)                       (* U+1680 *)
  || ((8192 <=? c) && (c <=? 8202))    (* U+2000 .. U+200A *)
  || (c =? 8232) || (c =? 8233)        (* U+2028, U+2029 *)
  || (c =? 8239)                       (* U+202F *)
  || (c =? 8287)                       (* U+205F *)
  || (c =? 12288)                      (* U+3000 *)
  || (c =? 65279).                     (* U+FEFF *)

Fixpoint drop_while (p : code_unit -> bool) (s : jsstring) : jsstring :=
  match s with
  | [] => []
  | c :: t => if p c then drop_while p t else s
  end.

(** [s.trimStart()], [s.trimEnd()], [s.trim()]. *)
Definition trimStart (s : jsstring) : jsstring :=
  drop_while is_white_space s.

Definition trimEnd (s : jsstring) : jsstring :=
  rev (drop_while is_white_space (rev s)).

Definition trim (s : jsstring) : jsstring :=
  trimEnd (trimStart s).

(** [s.replace(/\s/g, "")]. *)
Definition remove_white_space (s : jsstring) : jsstring :=
  filter (fun c => negb (is_white_space c)) s.

(** [/\d/.test(s)]. *)
Definition contains_digit (s : jsstring) : bool :=
  existsb is_digit s.

(** Number of digits of [s]. *)
Definition digit_count (s : jsstring) : nat :=
  List.length (filter is_digit s).

(** Code units of an ASCII literal. *)
Fixpoint of_string (s : string) : jsstring :=
  match s with
  | EmptyString => []
  | String a t => N_of_ascii a :: of_string t
  end.

End JsString.

Import JsString.

(* ===================================================================== *)
(** ** The number extractor ([OCRInterface.extractNumberSequences]) *)
(* ===================================================================== *)

Module Extractor.

(** The character class [[\d\s+-]]. *)
Definition in_class (c : code_unit) : bool :=
  is_digit c || is_white_space c || (c =? 43)%N || (c =? 45)%N.

(** What the quantifier [{8,}] accepts: a finished run is a match when
    it has at least eight code units. *)
Definition emit (run_rev : jsstring) : list jsstring :=
  if 8 <=? List.length run_rev then [rev run_rev] else [].

(** All matches of [/[\d\s+-]{8,}/g], left to right.  The quantifier is
    greedy and the scan resumes after each match, so the matches are the
    maximal runs of class characters with at least eight code units.
    [run_rev] is the run in progress, most recent code unit first. *)
Fixpoint scan (run_rev : jsstring) (text : jsstring) : list jsstring :=
  match text with
  | [] => emit run_rev
  | c :: rest =>
      if in_class c then scan (c :: run_rev) rest
      else emit run_rev ++ scan [] rest
  end.

(** [text.match(/[\d\s+-]{8,}/g)]: [null] when nothing matches. *)
Definition match_all (text : jsstring) : option (list jsstring) :=
  match scan [] text with
  | [] => None
  | ms => Some ms
  end.

(** The last filter of the source:
    [seq.replace(/\s/g, "").length >= 2]. *)
Definition long_enough (seq : jsstring) : bool :=
  2 <=? List.length (remove_white_space seq).

Definition extractNumberSequences (text : jsstring) : list jsstring :=
  match match_all text with
  | None => []
  | Some matches =>
      filter long_enough
        (filter contains_digit
           (map trim matches))
  end.

(** The extractor as the specification words it: the last filter counts
    digits. *)
Definition two_digits (seq : jsstring) : bool :=
  2 <=? digit_count seq.

Definition extract_as_specified (text : jsstring) : list jsstring :=
  filter two_digits
    (filter contains_digit
       (map trim (scan [] text))).

End Extractor.

Import Extractor.

(* ===================================================================== *)
(** ** Thrown values and completions *)
(* ===================================================================== *)

(** A value other than [null] and [undefined], as a [throw] statement
    of the program or a rejected promise of the browser carries.
    [Thrown_Error] is an instance of [Error] with its [name] and
    [message]; [Thrown_String] is a primitive string; [Thrown_Object] is
    an object or function that is not an instance of [Error] and has a
    [name]; [Thrown_Other] is any other value, whose [name] property is
    [undefined], as it is for a primitive string.  Names are strings.
    Every property of such a value can be read; reading one off [null]
    or [undefined] throws, see [rejection]. *)
Inductive thrown : Type :=
| Thrown_Error (name message : string)
| Thrown_String (s : string)
| Thrown_Object (name : string)
| Thrown_Other.

(** [(e as Error).name], [None] for [undefined]. *)
Definition name_of (e : thrown) : option string :=
  match e with
  | Thrown_Error n _ => Some n
  | Thrown_String _ => None
  | Thrown_Object n => Some n
  | Thrown_Other => None
  end.

(** [new Error(message)]: the name is inherited from [Error.prototype]. *)
Definition new_Error (message : string) : thrown :=
  Thrown_Error "Error" message.

(** What the engine throws when [property] is read off [null] or
    [undefined].  The wording of the message is the engine's. *)
Definition TypeError_of_read (property : string) : thrown :=
  Thrown_Error "TypeError"
    ("Cannot read properties of undefined (reading '" ++ property ++ "')").

(** What a promise of a library is rejected with: any value at all,
    [null] and [undefined] included. *)
Inductive rejection : Type :=
| Rejected (value : thrown)
| Rejected_nullish.

Coercion Rejected : thrown >-> rejection.

(** Result of a call that may throw (or of a promise that may reject),
    [E] being what it throws (or is rejected with). *)
Inductive completion_of (E A : Type) : Type :=
| Normal (value : A)
| Throw (error : E).

Arguments Normal {E A} value.
Arguments Throw {E A} & error.

(** The completion of a call of the program, and of a promise of the
    browser. *)
Definition completion : Type -> Type := completion_of thrown.

(** The settlement of a promise of a library. *)
Definition settlement : Type -> Type := completion_of rejection.

(* ===================================================================== *)
(** ** Error taxonomy and messages ([utils/errors.ts], [types.ts]) *)
(* ===================================================================== *)

Module Errors.

Inductive CameraError : Type :=
| NO_CAMERA | PERMISSION_DENIED | NOT_SUPPORTED | DEVICE_ERROR.

Inductive OCRError : Type :=
| INITIALIZATION_FAILED | PROCESSING_FAILED | NO_TEXT_FOUND | INVALID_IMAGE.

Inductive AppError : Type :=
| Camera_error (e : CameraError)
| OCR_error (e : OCRError).

Definition CameraError_name (e : CameraError) : string :=
  match e with
  | NO_CAMERA => "NO_CAMERA"
  | PERMISSION_DENIED => "PERMISSION_DENIED"
  | NOT_SUPPORTED => "NOT_SUPPORTED"
  | DEVICE_ERROR => "DEVICE_ERROR"
  end.

Definition OCRError_name (e : OCRError) : string :=
  match e with
  | INITIALIZATION_FAILED => "INITIALIZATION_FAILED"
  | PROCESSING_FAILED => "PROCESSING_FAILED"
  | NO_TEXT_FOUND => "NO_TEXT_FOUND"
  | INVALID_IMAGE => "INVALID_IMAGE"
  end.

Definition AppError_name (e : AppError) : string :=
  match e with
  | Camera_error c => CameraError_name c
  | OCR_error o => OCRError_name o
  end.

Definition all_AppErrors : list AppError :=
  [ Camera_error NO_CAMERA; Camera_error PERMISSION_DENIED;
    Camera_error NOT_SUPPORTED; Camera_error DEVICE_ERROR;
    OCR_error INITIALIZATION_FAILED; OCR_error PROCESSING_FAILED;
    OCR_error NO_TEXT_FOUND; OCR_error INVALID_IMAGE ].

(** The table [ERROR_MESSAGES]. *)
Definition ERROR_MESSAGES (e : AppError) : string :=
  match e with
  | Camera_error NO_CAMERA =>
      "No camera detected. Please connect a camera and try again."
  | Camera_error PERMISSION_DENIED =>
      "Camera access denied. Please allow camera access in your browser settings and refresh the page."
  | Camera_error NOT_SUPPORTED =>
      "Your browser doesn't support camera access. Please use Chrome, Firefox, Safari, or Edge."
  | Camera_error DEVICE_ERROR =>
      "Camera error occurred. Please check your camera and try again."
  | OCR_error INITIALIZATION_FAILED =>
      "Failed to initialize OCR. Please refresh the page and try again."
  | OCR_error PROCESSING_FAILED =>
      "Failed to process image. Please try again with a different image."
  | OCR_error NO_TEXT_FOUND =>
      "No text found in the image. Try capturing a clearer image with better lighting and visible text."
  | OCR_error INVALID_IMAGE =>
      "Invalid image format. Please capture a new photo."
  end.

(** The own key of [ERROR_MESSAGES] that a name denotes, if any. *)
Definition key_of_name (n : string) : option AppError :=
  find (fun k => String.eqb (AppError_name k) n) all_AppErrors.

(** The table is an object literal: besides its eight own keys it has
    the properties that every object inherits from [Object.prototype]. *)
Definition Object_prototype_properties : list string :=
  [ "constructor"; "hasOwnProperty"; "isPrototypeOf";
    "propertyIsEnumerable"; "toLocaleString"; "toString"; "valueOf";
    "__proto__"; "__defineGetter__"; "__defineSetter__";
    "__lookupGetter__"; "__lookupSetter__" ].

Definition is_inherited (n : string) : bool :=
  existsb (String.eqb n) Object_prototype_properties.

(** The value of a property of the table: one of its messages, or a
    member inherited from [Object.prototype], which is a function or an
    object and no string. *)
Inductive message_value : Type :=
| Message (text : string)
| Inherited (property : string).

Coercion Message : string >-> message_value.

(** [n in ERROR_MESSAGES]. *)
Definition has_property (n : string) : bool :=
  match key_of_name n with
  | Some _ => true
  | None => is_inherited n
  end.

(** [ERROR_MESSAGES[n]], [None] for [undefined]. *)
Definition get_property (n : string) : option message_value :=
  match key_of_name n with
  | Some k => Some (Message (ERROR_MESSAGES k))
  | None => if is_inherited n then Some (Inherited n) else None
  end.

(** [getErrorMessage(error)]: the error type is the string itself, or
    else the [name] of the value, whatever the value is; it is looked up
    in the table, with a generic fallback.  Every value of the table is
    truthy.  The workflow calls the function on caught values for which
    [isAppError] holds. *)
Definition getErrorMessage (error : thrown) : message_value :=
  let errorType :=
    match error with
    | Thrown_String s => Some s
    | _ => name_of error
    end in
  match errorType with
  | Some n =>
      match get_property n with
      | Some v => v
      | None => Message "An unexpected error occurred. Please try again."
      end
  | None => Message "An unexpected error occurred. Please try again."
  end.

(** [isAppError(error)]: a string, or the name of an instance of
    [Error], that is a property of the table; [false] for every other
    value. *)
Definition isAppError (error : thrown) : bool :=
  match error with
  | Thrown_String s => has_property s
  | Thrown_Error n _ => has_property n
  | Thrown_Object _ => false
  | Thrown_Other => false
  end.

End Errors.

Import Errors.

(* ===================================================================== *)
(** ** The camera manager ([CameraManager.ts]) *)
(* ===================================================================== *)

Module Camera.

Inductive FacingMode : Type := user | environment.

Record CameraConfig : Type := {
  facingMode : FacingMode;
  width_ideal : option N;
  height_ideal : option N
}.

Inductive MediaDeviceKind : Type := audioinput | audiooutput | videoinput.

Inductive TrackKind : Type := audio_track | video_track.

Record MediaStreamTrack : Type := {
  track_id : N;
  track_kind : TrackKind;
  settings_deviceId : option string    (* getSettings().deviceId *)
}.

Record MediaStream : Type := {
  stream_id : N;
  getTracks : list MediaStreamTrack
}.

Definition is_video (t : MediaStreamTrack) : bool :=
  match track_kind t with video_track => true | audio_track => false end.

Definition getVideoTracks (s : MediaStream) : list MediaStreamTrack :=
  filter is_video (getTracks s).

Record HTMLVideoElement : Type := {
  element_id : N;
  videoWidth : N;
  videoHeight : N
}.

Record ImageData : Type := {
  width : N;
  height : N;
  data : list N
}.

Record CameraState : Type := {
  stream : option MediaStream;
  isActive : bool;
  deviceId : option string
}.

Record CameraManager : Type := {
  state : CameraState;
  videoElement : option HTMLVideoElement
}.

(** Field initialisers of the class. *)
Definition new_CameraManager : CameraManager :=
  {| state := {| stream := None; isActive := false; deviceId := None |};
     videoElement := None |}.

(** Effects on the platform, in the order the manager performs them. *)
Inductive event : Type :=
| Ev_enumerateDevices
| Ev_getUserMedia (config : CameraConfig)
| Ev_track_stop (t : MediaStreamTrack)
| Ev_set_srcObject (v : HTMLVideoElement) (s : option MediaStream)
| Ev_play (v : HTMLVideoElement)
| Ev_drawImage (v : HTMLVideoElement).

Definition createError (type : CameraError) : thrown :=
  Thrown_Error (CameraError_name type) (CameraError_name type).

(** [handleStreamError(error)], for what [getUserMedia] was rejected
    with: the browser rejects with an exception object (a [DOMException]
    or a [TypeError]), whose [name] can be read. *)
Definition handleStreamError (error : thrown) : CameraError :=
  match name_of error with
  | Some errorName =>
      if String.eqb errorName "NotAllowedError" then PERMISSION_DENIED
      else if String.eqb errorName "PermissionDeniedError" then PERMISSION_DENIED
      else if String.eqb errorName "NotFoundError" then NO_CAMERA
      else if String.eqb errorName "DevicesNotFoundError" then NO_CAMERA
      else if String.eqb errorName "NotSupportedError" then NOT_SUPPORTED
      else DEVICE_ERROR
  | None => DEVICE_ERROR
  end.

(** [checkCameraAvailability()].  [has_getUserMedia] is
    [navigator.mediaDevices?.getUserMedia]; [devices] is the outcome of
    [enumerateDevices()], consulted only when it is called. *)
Definition checkCameraAvailability
    (has_getUserMedia : bool)
    (devices : completion (list MediaDeviceKind))
  : bool * list event :=
  if negb has_getUserMedia then (false, [])
  else
    match devices with
    | Normal ds =>
        let videoDevices :=
          filter (fun k => match k with videoinput => true | _ => false end) ds in
        (0 <? List.length videoDevices, [Ev_enumerateDevices])
    | Throw _ => (false, [Ev_enumerateDevices])
    end.

(** [x || null] at an optional string. *)
Definition or_null (x : option string) : option string :=
  match x with
  | Some EmptyString => None
  | _ => x
  end.

(** The part of [requestCameraAccess] that runs when [getUserMedia]
    has resolved with [s]. *)
Definition stream_acquired (s : MediaStream) (cm : CameraManager)
  : CameraManager :=
  let st1 := {| stream := Some s; isActive := true;
                deviceId := deviceId (state cm) |} in
  let st2 :=
    match getVideoTracks s with
    | videoTrack :: _ =>
        {| stream := stream st1; isActive := isActive st1;
           deviceId := or_null (settings_deviceId videoTrack) |}
    | [] => st1
    end in
  {| state := st2; videoElement := videoElement cm |}.

(** The part of [requestCameraAccess] before its [await]: it throws when
    the capability is absent (no request is issued), otherwise it issues
    the request. *)
Definition requestCameraAccess_call
    (has_getUserMedia : bool) (config : CameraConfig)
  : completion unit * list event :=
  if negb has_getUserMedia then (Throw (createError NOT_SUPPORTED), [])
  else (Normal tt, [Ev_getUserMedia config]).

(** The part of [requestCameraAccess] after its [await]. *)
Definition requestCameraAccess_resume
    (outcome : completion MediaStream) (cm : CameraManager)
  : completion MediaStream * CameraManager :=
  match outcome with
  | Normal s => (Normal s, stream_acquired s cm)
  | Throw error => (Throw (createError (handleStreamError error)), cm)
  end.

(** [requestCameraAccess(config)], run to completion. *)
Definition requestCameraAccess
    (has_getUserMedia : bool) (config : CameraConfig)
    (outcome : completion MediaStream) (cm : CameraManager)
  : completion MediaStream * CameraManager * list event :=
  match requestCameraAccess_call has_getUserMedia config with
  | (Throw e, evs) => (Throw e, cm, evs)
  | (Normal _, evs) =>
      let '(r, cm') := requestCameraAccess_resume outcome cm in
      (r, cm', evs)
  end.

(** [attachToVideoElement(video)]; a failure of [play()] is only
    logged. *)
Definition attachToVideoElement (v : HTMLVideoElement) (cm : CameraManager)
  : completion unit * CameraManager * list event :=
  match stream (state cm) with
  | None => (Throw (new_Error "No active camera stream"), cm, [])
  | Some s =>
      (Normal tt,
       {| state := state cm; videoElement := Some v |},
       [Ev_set_srcObject v (Some s); Ev_play v])
  end.

(** [capturePhoto()].  [context2d] tells whether the fresh canvas
    yields a 2D context; [pixels] is what [getImageData] reads back.
    [getImageData(0, 0, sw, sh)] throws an [IndexSizeError] when [sw] or
    [sh] is zero, which is the case as long as the video has no frame. *)
Definition capturePhoto (context2d : bool) (pixels : list N)
    (cm : CameraManager)
  : completion ImageData * list event :=
  match videoElement cm with
  | None => (Throw (new_Error "No video element attached"), [])
  | Some v =>
      match stream (state cm) with
      | None => (Throw (new_Error "Camera is not active"), [])
      | Some _ =>
          if negb (isActive (state cm))
          then (Throw (new_Error "Camera is not active"), [])
          else if negb context2d
          then (Throw (new_Error "Failed to get canvas context"), [])
          else if (videoWidth v =? 0)%N || (videoHeight v =? 0)%N
          then (Throw (Thrown_Error "IndexSizeError"
                         "The source width or height is 0."),
                [Ev_drawImage v])
          else (Normal {| width := videoWidth v; height := videoHeight v;
                          data := pixels |},
                [Ev_drawImage v])
      end
  end.

Definition getVideoDimensions (cm : CameraManager) : option (N * N) :=
  match videoElement cm with
  | None => None
  | Some v => Some (videoWidth v, videoHeight v)
  end.

(** [stopCamera()].  Written as a call that may throw, like the other
    methods; no branch of it does. *)
Definition stopCamera (cm : CameraManager)
  : completion unit * CameraManager * list event :=
  let '(stream1, evs1) :=
    match stream (state cm) with
    | Some s => (None, map Ev_track_stop (getTracks s))
    | None => (stream (state cm), [])
    end in
  let '(video1, evs2) :=
    match videoElement cm with
    | Some v => (None, [Ev_set_srcObject v None])
    | None => (videoElement cm, [])
    end in
  (Normal tt,
   {| state := {| stream := stream1; isActive := false; deviceId := None |};
      videoElement := video1 |},
   evs1 ++ evs2).

Definition getState (cm : CameraManager) : CameraState := state cm.

Definition isActive_ (cm : CameraManager) : bool := isActive (state cm).

(** The states a manager can be in: whatever a sequence of its public
    mutating methods produces from a fresh instance. *)
Inductive reachable : CameraManager -> Prop :=
| reach_new : reachable new_CameraManager
| reach_request : forall cm gum config outcome,
    reachable cm ->
    reachable (snd (fst (requestCameraAccess gum config outcome cm)))
| reach_attach : forall cm v,
    reachable cm ->
    reachable (snd (fst (attachToVideoElement v cm)))
| reach_stop : forall cm,
    reachable cm ->
    reachable (snd (fst (stopCamera cm))).

(** Names of the rejections of [getUserMedia] that [handleStreamError]
    tells apart. *)
Definition denial_names : list string :=
  ["NotAllowedError"; "PermissionDeniedError"].

Definition missing_device_names : list string :=
  ["NotFoundError"; "DevicesNotFoundError"].

(** A manager has a stream exactly when it is active, and keeps neither a
    device id nor a video element without a stream. *)
Definition consistent (cm : CameraManager) : Prop :=
  (isActive (state cm) = false <-> stream (state cm) = None)
  /\ (stream (state cm) = None ->
      deviceId (state cm) = None /\ videoElement cm = None).

(** [n] calls of [stopCamera] in a row. *)
Definition stopCamera_times (n : nat) (cm : CameraManager) : CameraManager :=
  Nat.iter n (fun cm => snd (fst (stopCamera cm))) cm.

End Camera.

(* ===================================================================== *)
(** ** The recognition engine ([OCREngine.ts], [ocr/types.ts]) *)
(* ===================================================================== *)

Module OCR.

Record OCRResult : Type := {
  text : jsstring;
  confidence : Q;
  language : string
}.

Inductive ProgressStatus : Type :=
| loading | initializing | recognizing | completed | error.

Record OCRProgress : Type := {
  status : ProgressStatus;
  progress : Z;                       (* 0-100 *)
  message : string
}.

(** The Tesseract worker handle and the registered progress callback are
    opaque to the engine; they are identified by a number. *)
Inductive Worker : Type := Worker_handle (id : N).
Inductive ProgressCallback : Type := Callback (id : N).

Record OCREngine : Type := {
  worker : option Worker;
  isInitialized : bool;
  onProgressCallback : option ProgressCallback
}.

Definition new_OCREngine : OCREngine :=
  {| worker := None; isInitialized := false; onProgressCallback := None |}.

(** The statuses of Tesseract's logger that the two tables of the engine
    list. *)
Inductive ListedStatus : Type :=
| loading_tesseract_core            (* 'loading tesseract core' *)
| initializing_tesseract            (* 'initializing tesseract' *)
| initialized_tesseract             (* 'initialized tesseract' *)
| loading_language_traineddata      (* 'loading language traineddata' *)
| loaded_language_traineddata       (* 'loaded language traineddata' *)
| initializing_api                  (* 'initializing api' *)
| initialized_api                   (* 'initialized api' *)
| recognizing_text.                 (* 'recognizing text' *)

(** The [status] of a logger message: one that the tables list, or any
    other status of Tesseract, which names no property of the tables. *)
Inductive LoggerStatus : Type :=
| Listed (s : ListedStatus)
| Unlisted.

(** A message handed to the [logger] option by Tesseract.  Its
    [progress] is a floating-point number between 0 and 1;
    [log_percent] is the integer between 0 and 100 that
    [Math.round(message.progress * 100)] evaluates to. *)
Record LoggerMessage : Type := {
  log_status : LoggerStatus;
  log_percent : Z
}.

(** What an external asynchronous call of the library does while the
    engine waits for it: the messages it logs, then how its promise
    settles. *)
Record external_run (A : Type) : Type := {
  logged : list LoggerMessage;
  settles : settlement A
}.

(** What [worker.recognize(image)] resolves with: [result.data]. *)
Record RecognizeData : Type := {
  data_text : jsstring;
  data_confidence : Q
}.

(** Effects of the engine: invocations of the registered progress
    callback, and calls into Tesseract. *)
Inductive event : Type :=
| Ev_progress (cb : ProgressCallback) (p : OCRProgress)
| Ev_createWorker
| Ev_recognize (w : Worker)
| Ev_terminate (w : Worker).

(** [reportProgress(progress)]. *)
Definition reportProgress (p : OCRProgress) (e : OCREngine) : list event :=
  match onProgressCallback e with
  | Some cb => [Ev_progress cb p]
  | None => []
  end.

Definition createError (type : OCRError) : thrown :=
  Thrown_Error (OCRError_name type) (OCRError_name type).

(** [progressMap[status]], [None] for [undefined]. *)
Definition progressMap (s : LoggerStatus) : option ProgressStatus :=
  match s with
  | Listed loading_tesseract_core => Some loading
  | Listed initializing_tesseract => Some initializing
  | Listed initialized_tesseract => Some initializing
  | Listed loading_language_traineddata => Some loading
  | Listed loaded_language_traineddata => Some initializing
  | Listed initializing_api => Some initializing
  | Listed initialized_api => Some initializing
  | Listed recognizing_text => Some recognizing
  | Unlisted => None
  end.

(** [messageMap[status]], [None] for [undefined]. *)
Definition messageMap (s : LoggerStatus) : option string :=
  match s with
  | Listed loading_tesseract_core => Some "Loading OCR engine"
  | Listed initializing_tesseract => Some "Initializing"
  | Listed initialized_tesseract => Some "Ready"
  | Listed loading_language_traineddata => Some "Loading language data"
  | Listed loaded_language_traineddata => Some "Language data loaded"
  | Listed initializing_api => Some "Starting up"
  | Listed initialized_api => Some "Ready to process"
  | Listed recognizing_text => Some "Extracting text"
  | Unlisted => None
  end.

(** Decimal rendering of an integer in a template literal. *)
Definition show_Z (z : Z) : string :=
  NilZero.string_of_int (Z.to_int z).

Definition formatProgressMessage (status : LoggerStatus) (progress : Z)
  : string :=
  let message :=
    match messageMap status with
    | Some m => m
    | None => "Processing"
    end in
  (message ++ "... " ++ show_Z progress ++ "%")%string.

Definition handleTesseractLogger (m : LoggerMessage) (e : OCREngine)
  : list event :=
  let status :=
    match progressMap (log_status m) with
    | Some s => s
    | None => recognizing
    end in
  let progress := log_percent m in
  reportProgress
    {| status := status; progress := progress;
       message := formatProgressMessage (log_status m) progress |} e.

(** The logger messages of one external call, as the engine relays
    them. *)
Definition relay (ms : list LoggerMessage) (e : OCREngine) : list event :=
  flat_map (fun m => handleTesseractLogger m e) ms.

Definition isReady (e : OCREngine) : bool :=
  isInitialized e
  && match worker e with Some _ => true | None => false end.

(** [initialize(onProgress?)], with the run of [createWorker]. *)
Definition initialize
    (onProgress : option ProgressCallback)
    (run : external_run Worker)
    (e : OCREngine)
  : completion unit * OCREngine * list event :=
  if isInitialized e
     && match worker e with Some _ => true | None => false end
  then (Normal tt, e, [])
  else
    let e1 := {| worker := worker e; isInitialized := isInitialized e;
                 onProgressCallback := onProgress |} in
    let evs1 :=
      reportProgress {| status := loading; progress := 0;
                        message := "Loading OCR engine..." |} e1
      ++ [Ev_createWorker] ++ relay (logged run) e1 in
    match settles run with
    | Normal w =>
        let e2 := {| worker := Some w; isInitialized := isInitialized e1;
                     onProgressCallback := onProgressCallback e1 |} in
        let evs2 :=
          reportProgress {| status := initializing; progress := 100;
                            message := "OCR engine ready" |} e2 in
        (Normal tt,
         {| worker := worker e2; isInitialized := true;
            onProgressCallback := onProgressCallback e2 |},
         evs1 ++ evs2)
    | Throw _ =>
        let evs2 :=
          reportProgress {| status := error; progress := 0;
                            message := "Failed to initialize OCR engine" |} e1 in
        (Throw (createError INITIALIZATION_FAILED), e1, evs1 ++ evs2)
    end.

(** The [catch] clause of [recognizeText].  It starts by reading
    [(error as Error).name], which itself throws when what was caught is
    [null] or [undefined]; nothing of the clause is run then. *)
Definition recognizeText_catch (err : rejection) (e : OCREngine)
  : completion OCRResult * list event :=
  match err with
  | Rejected_nullish => (Throw (TypeError_of_read "name"), [])
  | Rejected caught =>
      (* [(error as Error).name === 'NO_TEXT_FOUND'] *)
      if match name_of caught with
         | Some n => String.eqb n "NO_TEXT_FOUND"
         | None => false
         end
      then (Throw caught, [])
      else
        (Throw (createError PROCESSING_FAILED),
         reportProgress {| status := error; progress := 0;
                           message := "Failed to process image" |} e)
  end.

(** [recognizeText(image, language = 'eng')], with the run of
    [worker.recognize(image)].  The image is only handed to the worker.
    [language] is [None] when the argument is omitted. *)
Definition recognizeText
    (language : option string)
    (run : external_run RecognizeData)
    (e : OCREngine)
  : completion OCRResult * list event :=
  let language := match language with Some l => l | None => "eng"%string end in
  match worker e, isInitialized e with
  | Some w, true =>
      let evs1 :=
        reportProgress {| status := recognizing; progress := 0;
                          message := "Processing image..." |} e
        ++ [Ev_recognize w] ++ relay (logged run) e in
      match settles run with
      | Normal result_data =>
          let evs2 :=
            reportProgress {| status := completed; progress := 100;
                              message := "Text extraction complete" |} e in
          (* [!text || text.trim().length === 0] *)
          if match data_text result_data with [] => true | _ => false end
             || (List.length (trim (data_text result_data)) =? 0)
          then
            let '(r, evs3) :=
              recognizeText_catch (createError NO_TEXT_FOUND) e in
            (r, evs1 ++ evs2 ++ evs3)
          else
            (Normal {| text := data_text result_data;
                       confidence := data_confidence result_data;
                       language := language |},
             evs1 ++ evs2)
      | Throw err =>
          let '(r, evs3) := recognizeText_catch err e in
          (r, evs1 ++ evs3)
      end
  | _, _ =>
      (Throw (new_Error "OCR engine not initialized. Call initialize() first."),
       [])
  end.

(** [terminate()], with the outcome of [worker.terminate()]; a
    rejection of the worker's promise is the rejection of the method's. *)
Definition terminate (outcome : settlement unit) (e : OCREngine)
  : settlement unit * OCREngine * list event :=
  match worker e with
  | Some w =>
      match outcome with
      | Normal _ => (Normal tt, new_OCREngine, [Ev_terminate w])
      | Throw err => (Throw err, e, [Ev_terminate w])
      end
  | None => (Normal tt, e, [])
  end.

End OCR.

(* ===================================================================== *)
(** ** The capture workflow ([OCRInterface.ts]) *)
(* ===================================================================== *)

Module UI.

Import Camera OCR.

Record Location : Type := {
  latitude : Q;
  longitude : Q
}.

(** What [container.innerHTML] shows.  Each render method of the class
    writes one of these six documents; the stage of the workflow is the
    document on display. *)
Inductive View : Type :=
| IdleView
| CameraView (video : HTMLVideoElement)
| CapturedView (image : ImageData)
| ProcessingView (progress_message : string) (progress_percent : Z)
| ResultsView (result : OCRResult) (numbers : list jsstring)
              (location : option Location)
| ErrorView (errorMessage : message_value).

Record OCRInterface : Type := {
  container : View;
  cameraManager : CameraManager;
  ocrEngine : OCREngine;
  capturedImageData : option ImageData;
  lastResult : option OCRResult;
  extractedNumbers : list jsstring;
  isStartingCamera : bool;
  capturedLocation : option Location
}.

(** Field initialisers and constructor, followed by [initialize()]. *)
Definition new_OCRInterface : OCRInterface :=
  {| container := IdleView;
     cameraManager := new_CameraManager;
     ocrEngine := new_OCREngine;
     capturedImageData := None;
     lastResult := None;
     extractedNumbers := [];
     isStartingCamera := false;
     capturedLocation := None |}.

(** Assignments to one field of [this]. *)
Definition set_container (v : View) (a : OCRInterface) : OCRInterface :=
  {| container := v;
     cameraManager := cameraManager a; ocrEngine := ocrEngine a;
     capturedImageData := capturedImageData a; lastResult := lastResult a;
     extractedNumbers := extractedNumbers a;
     isStartingCamera := isStartingCamera a;
     capturedLocation := capturedLocation a |}.

Definition set_cameraManager (cm : CameraManager) (a : OCRInterface)
  : OCRInterface :=
  {| container := container a;
     cameraManager := cm; ocrEngine := ocrEngine a;
     capturedImageData := capturedImageData a; lastResult := lastResult a;
     extractedNumbers := extractedNumbers a;
     isStartingCamera := isStartingCamera a;
     capturedLocation := capturedLocation a |}.

Definition set_ocrEngine (e : OCREngine) (a : OCRInterface) : OCRInterface :=
  {| container := container a;
     cameraManager := cameraManager a; ocrEngine := e;
     capturedImageData := capturedImageData a; lastResult := lastResult a;
     extractedNumbers := extractedNumbers a;
     isStartingCamera := isStartingCamera a;
     capturedLocation := capturedLocation a |}.

Definition set_capturedImageData (i : option ImageData) (a : OCRInterface)
  : OCRInterface :=
  {| container := container a;
     cameraManager := cameraManager a; ocrEngine := ocrEngine a;
     capturedImageData := i; lastResult := lastResult a;
     extractedNumbers := extractedNumbers a;
     isStartingCamera := isStartingCamera a;
     capturedLocation := capturedLocation a |}.

Definition set_lastResult (r : option OCRResult) (a : OCRInterface)
  : OCRInterface :=
  {| container := container a;
     cameraManager := cameraManager a; ocrEngine := ocrEngine a;
     capturedImageData := capturedImageData a; lastResult := r;
     extractedNumbers := extractedNumbers a;
     isStartingCamera := isStartingCamera a;
     capturedLocation := capturedLocation a |}.

Definition set_extractedNumbers (ns : list jsstring) (a : OCRInterface)
  : OCRInterface :=
  {| container := container a;
     cameraManager := cameraManager a; ocrEngine := ocrEngine a;
     capturedImageData := capturedImageData a; lastResult := lastResult a;
     extractedNumbers := ns;
     isStartingCamera := isStartingCamera a;
     capturedLocation := capturedLocation a |}.

Definition set_isStartingCamera (b : bool) (a : OCRInterface) : OCRInterface :=
  {| container := container a;
     cameraManager := cameraManager a; ocrEngine := ocrEngine a;
     capturedImageData := capturedImageData a; lastResult := lastResult a;
     extractedNumbers := extractedNumbers a;
     isStartingCamera := b;
     capturedLocation := capturedLocation a |}.

Definition set_capturedLocation (l : option Location) (a : OCRInterface)
  : OCRInterface :=
  {| container := container a;
     cameraManager := cameraManager a; ocrEngine := ocrEngine a;
     capturedImageData := capturedImageData a; lastResult := lastResult a;
     extractedNumbers := extractedNumbers a;
     isStartingCamera := isStartingCamera a;
     capturedLocation := l |}.

(** Effects of the workflow, in the order it performs them: the effects
    of its two collaborators, the documents it puts on display, and its
    own platform calls. *)
Inductive event : Type :=
| Ev_camera (e : Camera.event)
| Ev_ocr (e : OCR.event)
| Ev_render (v : View)
| Ev_setTimeout (ms : N)
| Ev_getCurrentPosition (timeout maximumAge : N).

(** A call of a workflow method: the new object and the effects. *)
Definition effect : Type := OCRInterface * list event.

Definition render (v : View) (a : OCRInterface) : effect :=
  (set_container v a, [Ev_render v]).

Definition renderIdleView (a : OCRInterface) : effect :=
  render IdleView a.

(** [renderCameraView()]; [video] is the element its markup creates. *)
Definition renderCameraView (video : HTMLVideoElement) (a : OCRInterface)
  : effect :=
  render (CameraView video) a.

Definition renderError (errorMessage : message_value) (a : OCRInterface)
  : effect :=
  render (ErrorView errorMessage) a.

Definition renderCapturedView (a : OCRInterface) : effect :=
  match capturedImageData a with
  | None => renderError "No image captured" a
  | Some img => render (CapturedView img) a
  end.

Definition renderProcessingView (a : OCRInterface) : effect :=
  render (ProcessingView "Initializing OCR..." 0) a.

Definition renderResultsView (a : OCRInterface) : effect :=
  match lastResult a with
  | None => renderError "No OCR results available" a
  | Some r =>
      let a1 := set_extractedNumbers (extractNumberSequences (text r)) a in
      render (ResultsView r (extractedNumbers a1) (capturedLocation a1)) a1
  end.

(** [updateProgress(progress)], which writes to the two paragraphs
    [#progress-message] and [#progress-percent] of the document on
    display, if it has them.  The processing document has both, and it
    is the document on display whenever the workflow hands a report of
    the engine to this method.  The markup of the other documents has
    neither; the results document embeds the recognised text as markup,
    and could have them only if that text brought them in, which is left
    out here. *)
Definition updateProgress (p : OCRProgress) (a : OCRInterface) : OCRInterface :=
  match container a with
  | ProcessingView _ _ =>
      set_container (ProcessingView (message p) (progress p)) a
  | _ => a
  end.

(** The callback the workflow registers with the engine,
    [(progress) => this.updateProgress(progress)]. *)
Definition updateProgress_callback : ProgressCallback := Callback 0.

(** Running the engine's callback invocations against the workflow. *)
Definition deliver (evs : list OCR.event) (a : OCRInterface) : OCRInterface :=
  fold_left
    (fun a ev =>
       match ev with
       | Ev_progress _ p => updateProgress p a
       | _ => a
       end)
    evs a.

(** [this.cameraManager.stopCamera()] as a statement of the workflow. *)
Definition do_stopCamera (a : OCRInterface) : completion unit * effect :=
  let '(r, cm, evs) := stopCamera (cameraManager a) in
  (r, (set_cameraManager cm a, map Ev_camera evs)).

(** *** [handleReset], [handleCancel] *)

Definition handleReset (a : OCRInterface) : effect :=
  let a1 := set_capturedImageData None a in
  let a2 := set_lastResult None a1 in
  let a3 := set_capturedLocation None a2 in
  renderIdleView a3.

(** An exception of [stopCamera] would leave the handler; the idle view
    is rendered when it returns. *)
Definition handleCancel (a : OCRInterface) : completion unit * effect :=
  match do_stopCamera a with
  | (Normal _, (a1, evs1)) =>
      let '(a2, evs2) := renderIdleView a1 in
      (Normal tt, (a2, evs1 ++ evs2))
  | (Throw e, eff) => (Throw e, eff)
  end.

(** *** [handleCapture] *)

Definition handleCapture_catch (a : OCRInterface) : effect :=
  renderError "Failed to capture photo. Please try again." a.

(** [context2d] and [pixels]: see [capturePhoto]. *)
Definition handleCapture (context2d : bool) (pixels : list N)
    (a : OCRInterface) : effect :=
  match capturePhoto context2d pixels (cameraManager a) with
  | (Normal img, evs0) =>
      let a1 := set_capturedImageData (Some img) a in
      match do_stopCamera a1 with
      | (Normal _, (a2, evs1)) =>
          let '(a3, evs2) := renderCapturedView a2 in
          (a3, map Ev_camera evs0 ++ evs1 ++ evs2)
      | (Throw _, (a2, evs1)) =>
          let '(a3, evs2) := handleCapture_catch a2 in
          (a3, map Ev_camera evs0 ++ evs1 ++ evs2)
      end
  | (Throw _, evs0) =>
      let '(a1, evs1) := handleCapture_catch a in
      (a1, map Ev_camera evs0 ++ evs1)
  end.

(** *** [handleStartCamera]

    The method is asynchronous: it runs up to an [await], returns to the
    event loop, and is resumed when the awaited promise settles.  Between
    the two any other handler may run.  [StartPC] names the [await] the
    method is suspended at. *)

Record StartEnv : Type := {
  has_getUserMedia : bool;          (* navigator.mediaDevices?.getUserMedia *)
  devices : completion (list MediaDeviceKind);   (* enumerateDevices() *)
  video_preview : HTMLVideoElement; (* created by the camera view *)
  back_camera : completion MediaStream;   (* getUserMedia, environment *)
  front_camera : completion MediaStream   (* getUserMedia, user *)
}.

Inductive StartPC : Type :=
| Await_availability              (* checkCameraAvailability() *)
| Await_timeout                   (* setTimeout(resolve, 100) *)
| Await_back_camera (video : HTMLVideoElement)
| Await_front_camera (video : HTMLVideoElement).

(** State of one invocation: the object, the effects performed by this
    step, and where the invocation is suspended ([None]: it has
    returned). *)
Definition suspended : Type := OCRInterface * list event * option StartPC.

Definition back_config : CameraConfig :=
  {| facingMode := environment;
     width_ideal := Some 1280%N; height_ideal := Some 720%N |}.

Definition front_config : CameraConfig :=
  {| facingMode := user;
     width_ideal := Some 1280%N; height_ideal := Some 720%N |}.

(** The [finally] clause. *)
Definition handleStartCamera_finally (a : OCRInterface) : OCRInterface :=
  set_isStartingCamera false a.

(** The outer [catch] clause, followed by [finally]. *)
Definition handleStartCamera_catch (err : thrown) (a : OCRInterface)
  : suspended :=
  let message :=
    if isAppError err then getErrorMessage err
    else Message "Failed to start camera" in
  let '(a1, evs1) := renderError message a in
  let '(_, (a2, evs2)) := do_stopCamera a1 in
  (handleStartCamera_finally a2, evs1 ++ evs2, None).

(** From the settlement of an access request that succeeded to the end
    of the method. *)
Definition handleStartCamera_attach (video : HTMLVideoElement)
    (a : OCRInterface) : suspended :=
  match attachToVideoElement video (cameraManager a) with
  | (Normal _, cm, evs) =>
      (handleStartCamera_finally (set_cameraManager cm a),
       map Ev_camera evs, None)
  | (Throw err, cm, evs) =>
      let '(a1, evs1, pc) :=
        handleStartCamera_catch err (set_cameraManager cm a) in
      (a1, map Ev_camera evs ++ evs1, pc)
  end.

(** The events of calling [requestCameraAccess(config)]. *)
Definition access_call (env : StartEnv) (config : CameraConfig) : list event :=
  map Ev_camera (snd (requestCameraAccess_call (has_getUserMedia env) config)).

(** The settlement of [requestCameraAccess(config)] as the awaiting
    method sees it: the rejection of the call itself, or else what the
    manager makes of the outcome of the stream request. *)
Definition access_settles (env : StartEnv) (config : CameraConfig)
    (outcome : completion MediaStream) (a : OCRInterface)
  : completion MediaStream * OCRInterface :=
  match fst (requestCameraAccess_call (has_getUserMedia env) config) with
  | Throw err => (Throw err, a)
  | Normal _ =>
      let '(r, cm) := requestCameraAccess_resume outcome (cameraManager a) in
      (r, set_cameraManager cm a)
  end.

(** From the call of the method to its first [await]. *)
Definition handleStartCamera_call (env : StartEnv) (a : OCRInterface)
  : suspended :=
  if isStartingCamera a then (a, [], None)
  else
    let a1 := set_isStartingCamera true a in
    (a1,
     map Ev_camera
       (snd (checkCameraAvailability (has_getUserMedia env) (devices env))),
     Some Await_availability).

(** From the settlement of the awaited promise to the next [await], or
    to the end of the method. *)
Definition handleStartCamera_resume (env : StartEnv) (pc : StartPC)
    (a : OCRInterface) : suspended :=
  match pc with
  | Await_availability =>
      let isAvailable :=
        fst (checkCameraAvailability (has_getUserMedia env) (devices env)) in
      if negb isAvailable then
        let '(a1, evs1) :=
          renderError
            "No camera detected. Please ensure your device has a camera and try again."
            a in
        (handleStartCamera_finally a1, evs1, None)
      else
        let '(a1, evs1) := renderCameraView (video_preview env) a in
        (a1, evs1 ++ [Ev_setTimeout 100], Some Await_timeout)
  | Await_timeout =>
      (* querySelector(".video-preview") *)
      match container a with
      | CameraView video =>
          (a, access_call env back_config, Some (Await_back_camera video))
      | _ =>
          handleStartCamera_catch (new_Error "Video element not found in DOM") a
      end
  | Await_back_camera video =>
      match access_settles env back_config (back_camera env) a with
      | (Normal _, a1) => handleStartCamera_attach video a1
      | (Throw _, a1) =>
          (a1, access_call env front_config, Some (Await_front_camera video))
      end
  | Await_front_camera video =>
      match access_settles env front_config (front_camera env) a with
      | (Normal _, a1) => handleStartCamera_attach video a1
      | (Throw err, a1) => handleStartCamera_catch err a1
      end
  end.

(** One more step of an invocation, accumulating its effects. *)
Definition advance (env : StartEnv) (s : suspended) : suspended :=
  match s with
  | (a, evs, Some pc) =>
      let '(a1, evs1, pc1) := handleStartCamera_resume env pc a in
      (a1, evs ++ evs1, pc1)
  | (_, _, None) => s
  end.

(** The invocation after [n] of its promises have settled, when no other
    handler runs in between. *)
Fixpoint handleStartCamera_steps (env : StartEnv) (n : nat) (a : OCRInterface)
  : suspended :=
  match n with
  | O => handleStartCamera_call env a
  | S k => advance env (handleStartCamera_steps env k a)
  end.

(** The method has at most four [await]s on any path. *)
Definition handleStartCamera (env : StartEnv) (a : OCRInterface) : suspended :=
  handleStartCamera_steps env 4 a.

(** Two invocations: the second is called when [n] promises of the first
    have settled, and the first then runs on.  The second component tells
    where the second invocation is left suspended ([None]: it has
    returned). *)
Definition handleStartCamera_twice (env env2 : StartEnv) (n : nat)
    (a : OCRInterface) : suspended * option StartPC :=
  let '(a1, evs1, pc1) := handleStartCamera_steps env n a in
  let '(a2, evs2, pc2) := handleStartCamera_call env2 a1 in
  (Nat.iter (4 - n) (advance env) (a2, evs1 ++ evs2, pc1), pc2).

(** [handleRetake]. *)
Definition handleRetake (env : StartEnv) (a : OCRInterface) : suspended :=
  handleStartCamera_call env (set_capturedImageData None a).

(** The stream requests among the effects. *)
Definition is_stream_request (ev : event) : bool :=
  match ev with
  | Ev_camera (Ev_getUserMedia _) => true
  | _ => false
  end.

Definition is_availability_check (ev : event) : bool :=
  match ev with
  | Ev_camera Ev_enumerateDevices => true
  | _ => false
  end.

Definition stream_requests (evs : list event) : nat :=
  List.length (filter is_stream_request evs).

(** *** [handleProcessOCR] *)

(** How the geolocation service answers [getCurrentPosition]:
    [navigator.geolocation] may be missing; otherwise one of the two
    callbacks is called, or none has been called yet. *)
Inductive Geolocation : Type :=
| Geo_unsupported
| Geo_position (coords : Location)
| Geo_error
| Geo_pending.

Record ProcessEnv : Type := {
  geolocation : Geolocation;
  createWorker_run : external_run Worker;
  canvas_context2d : bool;                 (* canvas.getContext("2d") *)
  recognize_run : external_run RecognizeData
}.

(** [getCaptureLocation()]: the value its promise is resolved with
    ([None] while it is pending; the inner option is the [null] of the
    source), and the request it makes. *)
Definition getCaptureLocation (geo : Geolocation)
  : option (option Location) * list event :=
  match geo with
  | Geo_unsupported => (Some None, [])
  | Geo_position coords =>
      (Some (Some {| latitude := latitude coords;
                     longitude := longitude coords |}),
       [Ev_getCurrentPosition 5000 0])
  | Geo_error => (Some None, [Ev_getCurrentPosition 5000 0])
  | Geo_pending => (None, [Ev_getCurrentPosition 5000 0])
  end.

(** Whether the method has returned or is still suspended at
    [await locationPromise]. *)
Inductive ProcessStatus : Type :=
| Returned
| Awaiting_location.

Definition handleProcessOCR_catch (err : thrown) (a : OCRInterface) : effect :=
  let message :=
    if isAppError err then getErrorMessage err
    else Message "OCR processing failed" in
  renderError message a.

(** [if (!isReady()) await initialize(cb)]. *)
Definition ensure_initialized (env : ProcessEnv) (a : OCRInterface)
  : completion unit * effect :=
  if isReady (ocrEngine a) then (Normal tt, (a, []))
  else
    let '(r, e, evs) :=
      initialize (Some updateProgress_callback) (createWorker_run env)
                 (ocrEngine a) in
    (r, (deliver evs (set_ocrEngine e a), map Ev_ocr evs)).

Definition handleProcessOCR (env : ProcessEnv) (a : OCRInterface)
  : effect * ProcessStatus :=
  match capturedImageData a with
  | None => (renderError "No image to process" a, Returned)
  | Some _ =>
      let '(a1, evs1) := renderProcessingView a in
      let '(locationPromise, evs2) := getCaptureLocation (geolocation env) in
      match ensure_initialized env a1 with
      | (Throw err, (a2, evs3)) =>
          let '(a3, evs4) := handleProcessOCR_catch err a2 in
          ((a3, evs1 ++ evs2 ++ evs3 ++ evs4), Returned)
      | (Normal _, (a2, evs3)) =>
          if negb (canvas_context2d env) then
            let '(a3, evs4) :=
              handleProcessOCR_catch
                (new_Error "Failed to create canvas context") a2 in
            ((a3, evs1 ++ evs2 ++ evs3 ++ evs4), Returned)
          else
            let '(r, oevs) :=
              recognizeText None (recognize_run env) (ocrEngine a2) in
            let a3 := deliver oevs a2 in
            let evs4 := map Ev_ocr oevs in
            match r with
            | Throw err =>
                let '(a4, evs5) := handleProcessOCR_catch err a3 in
                ((a4, evs1 ++ evs2 ++ evs3 ++ evs4 ++ evs5), Returned)
            | Normal result =>
                let a4 := set_lastResult (Some result) a3 in
                match locationPromise with
                | None =>
                    ((a4, evs1 ++ evs2 ++ evs3 ++ evs4), Awaiting_location)
                | Some l =>
                    let a5 := set_capturedLocation l a4 in
                    let '(a6, evs5) := renderResultsView a5 in
                    ((a6, evs1 ++ evs2 ++ evs3 ++ evs4 ++ evs5), Returned)
                end
            end
      end
  end.

(** The stage of the workflow, read off the document on display. *)
Inductive Stage : Type :=
| Idle | CameraActive | PhotoCaptured | Processing | Results | Error.

Definition stage (a : OCRInterface) : Stage :=
  match container a with
  | IdleView => Idle
  | CameraView _ => CameraActive
  | CapturedView _ => PhotoCaptured
  | ProcessingView _ _ => Processing
  | ResultsView _ _ _ => Results
  | ErrorView _ => Error
  end.

(** How many promises an invocation may still have to wait for. *)
Definition remaining (pc : option StartPC) : nat :=
  match pc with
  | Some Await_availability => 4
  | Some Await_timeout => 3
  | Some (Await_back_camera _) => 2
  | Some (Await_front_camera _) => 1
  | None => 0
  end.

(** The same platform with another answer of the geolocation service. *)
Definition with_geolocation (geo : Geolocation) (env : ProcessEnv)
  : ProcessEnv :=
  {| geolocation := geo;
     createWorker_run := createWorker_run env;
     canvas_context2d := canvas_context2d env;
     recognize_run := recognize_run env |}.

(** The location a results view shows for an answer of the service. *)
Definition location_of (geo : Geolocation) : option Location :=
  match geo with
  | Geo_position coords => Some coords
  | _ => None
  end.

(** How many stream requests an invocation may still issue. *)
Definition budget (pc : option StartPC) : nat :=
  match pc with
  | Some Await_availability => 2
  | Some Await_timeout => 2
  | Some (Await_back_camera _) => 1
  | Some (Await_front_camera _) => 0
  | None => 0
  end.

(** A processing run on the platform [env] when its geolocation service
    answers [geo]. *)
Definition processing_run (env : ProcessEnv) (a : OCRInterface)
    (geo : Geolocation) : effect * ProcessStatus :=
  handleProcessOCR (with_geolocation geo env) a.

(** The result [recognizeText] builds from what the worker resolved
    with, the language argument being omitted. *)
Definition result_of (d : RecognizeData) : OCRResult :=
  {| text := data_text d; confidence := data_confidence d;
     language := "eng" |}.

(** *** [handleCopyText], [handleCopyNumber], [cleanup] *)

(** The two kinds of copy button of the results view. *)
Inductive CopyButton : Type :=
| Copy_text_button                       (* #copy-text *)
| Copy_number_button (index : Z).        (* .copy-number-btn[data-index] *)

(** Effects of the copy handlers: the write to the clipboard, the check
    mark shown on a button for two seconds, the alert. *)
Inductive copy_event : Type :=
| Ev_writeText (text : jsstring)
| Ev_feedback (button : CopyButton)
| Ev_alert (message : string).

(** [querySelector] for a copy button in the document on display. *)
Definition has_button (b : CopyButton) (a : OCRInterface) : bool :=
  match container a, b with
  | ResultsView _ _ _, Copy_text_button => true
  | ResultsView _ numbers _, Copy_number_button index =>
      (0 <=? index)%Z && (index <? Z.of_nat (List.length numbers))%Z
  | _, _ => false
  end.

(** The call [navigator.clipboard.writeText(text)] inside a [try]:
    [clipboard] is [None] when the platform has no [navigator.clipboard],
    in which case the call itself throws, and otherwise tells how the
    promise settles. *)
Definition writeText (clipboard : option (completion unit)) (text : jsstring)
  : completion unit * list copy_event :=
  match clipboard with
  | None =>
      (Throw (Thrown_Error "TypeError"
                "Cannot read properties of undefined"), [])
  | Some outcome => (outcome, [Ev_writeText text])
  end.

(** [handleCopyText()], no other handler running before the write has
    settled. *)
Definition handleCopyText (clipboard : option (completion unit))
    (a : OCRInterface) : list copy_event :=
  match lastResult a with
  | None => []
  | Some r =>
      match writeText clipboard (text r) with
      | (Normal _, evs) =>
          if has_button Copy_text_button a
          then evs ++ [Ev_feedback Copy_text_button]
          else evs
      | (Throw _, evs) =>
          evs ++ [Ev_alert "Failed to copy text to clipboard"]
      end
  end.

(** [handleCopyNumber(index)], for an integer [index]. *)
Definition handleCopyNumber (index : Z) (clipboard : option (completion unit))
    (a : OCRInterface) : list copy_event :=
  if (index <? 0)%Z
     || (Z.of_nat (List.length (extractedNumbers a)) <=? index)%Z
  then []
  else
    match nth_error (extractedNumbers a) (Z.to_nat index) with
    | None => []            (* excluded by the guard *)
    | Some number =>
        match writeText clipboard number with
        | (Normal _, evs) =>
            if has_button (Copy_number_button index) a
            then evs ++ [Ev_feedback (Copy_number_button index)]
            else evs
        | (Throw _, evs) => evs
        end
    end.

(** [cleanup()], with the outcome of the worker's termination. *)
Definition cleanup (outcome : settlement unit) (a : OCRInterface)
  : settlement unit * effect :=
  match do_stopCamera a with
  | (Throw err, eff) => (Throw (Rejected err), eff)
  | (Normal _, (a1, evs1)) =>
      let '(r, e, evs2) := terminate outcome (ocrEngine a1) in
      (r, (set_ocrEngine e a1, evs1 ++ map Ev_ocr evs2))
  end.

End UI.

(* ===================================================================== *)
(** ** Sample data for the concrete runs below *)
(* ===================================================================== *)

Module Scenario.

Import Camera OCR UI.

Definition back_track : MediaStreamTrack :=
  {| track_id := 1; track_kind := video_track;
     settings_deviceId := Some "back-0" |}.

Definition back_stream : MediaStream :=
  {| stream_id := 1; getTracks := [back_track] |}.

Definition front_track : MediaStreamTrack :=
  {| track_id := 2; track_kind := video_track;
     settings_deviceId := Some "front-0" |}.

Definition front_stream : MediaStream :=
  {| stream_id := 2; getTracks := [front_track] |}.

Definition preview : HTMLVideoElement :=
  {| element_id := 7; videoWidth := 1280; videoHeight := 720 |}.

(** A device with a working back camera. *)
Definition env_back_ok : StartEnv :=
  {| has_getUserMedia := true;
     devices := Normal [audioinput; videoinput];
     video_preview := preview;
     back_camera := Normal back_stream;
     front_camera := Normal front_stream |}.

(** A device whose only camera faces the user: the first request is
    rejected, the retry succeeds. *)
Definition env_front_only : StartEnv :=
  {| has_getUserMedia := true;
     devices := Normal [videoinput];
     video_preview := preview;
     back_camera := Throw (Thrown_Error "OverconstrainedError" "facingMode");
     front_camera := Normal front_stream |}.

(** A device without any camera. *)
Definition env_no_camera : StartEnv :=
  {| has_getUserMedia := true;
     devices := Normal [audioinput];
     video_preview := preview;
     back_camera := Throw (Thrown_Error "NotFoundError" "");
     front_camera := Throw (Thrown_Error "NotFoundError" "") |}.

(** The same device, looked at before the preview has received its
    first frame: the video element has no dimensions yet. *)
Definition preview_without_frame : HTMLVideoElement :=
  {| element_id := 7; videoWidth := 0; videoHeight := 0 |}.

Definition env_no_frame_yet : StartEnv :=
  {| has_getUserMedia := true;
     devices := Normal [audioinput; videoinput];
     video_preview := preview_without_frame;
     back_camera := Normal back_stream;
     front_camera := Normal front_stream |}.

Definition camera_just_started : OCRInterface :=
  fst (fst (handleStartCamera env_no_frame_yet new_OCRInterface)).

(** A device that lists a camera but grants no access to it: the back
    camera is not found, the front camera is denied. *)
Definition env_no_camera_listed : StartEnv :=
  {| has_getUserMedia := true;
     devices := Normal [videoinput];
     video_preview := preview;
     back_camera := Throw (Thrown_Error "NotFoundError" "no back camera");
     front_camera := Throw (Thrown_Error "NotAllowedError" "denied") |}.

(** The workflow once the camera has been started on [env_back_ok]. *)
Definition camera_started : OCRInterface :=
  fst (fst (handleStartCamera env_back_ok new_OCRInterface)).

(** ... and once a photo has been taken. *)
Definition photo_captured : OCRInterface :=
  fst (handleCapture true [0; 0; 0; 255]%N camera_started).

Definition tesseract : Worker := Worker_handle 1.

Definition recognized (s : string) : external_run RecognizeData :=
  {| logged := [ {| log_status := Listed recognizing_text;
                    log_percent := 50 |} ];
     settles := Normal {| data_text := of_string s;
                          data_confidence := (87 # 1)%Q |} |}.

Definition env_process (geo : Geolocation) (run : external_run RecognizeData)
  : ProcessEnv :=
  {| geolocation := geo;
     createWorker_run := {| logged := []; settles := Normal tesseract |};
     canvas_context2d := true;
     recognize_run := run |}.

Definition stockholm : Location :=
  {| latitude := (5933 # 100)%Q; longitude := (1807 # 100)%Q |}.

(** The workflow showing the results of recognising an order slip. *)
Definition results_shown : OCRInterface :=
  fst (fst (handleProcessOCR
              (env_process (Geo_position stockholm)
                           (recognized "order 12 34 5678 thanks"))
              photo_captured)).

(** An engine that has been initialised with a progress callback. *)
Definition ready_engine : OCREngine :=
  {| worker := Some tesseract; isInitialized := true;
     onProgressCallback := Some updateProgress_callback |}.


End Scenario.

Import Camera OCR UI Scenario.

Unset Implicit Arguments.

(* ===================================================================== *)
(** * Properties *)
(* ===================================================================== *)

(** ** Characters and trimming *)

Lemma is_digit_bounds (c : code_unit) :
  is_digit c = true <-> (48 <= c <= 57)%N.
Proof.
  unfold is_digit.
  rewrite andb_true_iff, !N.leb_le.
  reflexivity.
Qed.

Lemma digit_is_not_white_space (c : code_unit) :
  is_digit c = true -> is_white_space c = false.
Proof.
  intros H. apply is_digit_bounds in H.
  unfold is_white_space.
  repeat (apply orb_false_intro);
    try (apply N.eqb_neq; lia);
    apply andb_false_iff.
  - right. apply N.leb_gt. lia.
  - left. apply N.leb_gt. lia.
Qed.

Lemma drop_while_incl (p : code_unit -> bool) (s : jsstring) :
  incl (drop_while p s) s.
Proof.
  induction s as [|c t IH]; simpl.
  - apply incl_refl.
  - destruct (p c).
    + apply incl_tl. exact IH.
    + apply incl_refl.
Qed.

Lemma drop_while_all (p : code_unit -> bool) (s : jsstring) :
  forallb p s = true -> drop_while p s = [].
Proof.
  induction s as [|c t IH]; simpl; [reflexivity|].
  destruct (p c); simpl; [exact IH | discriminate].
Qed.

Lemma trim_incl (s : jsstring) : incl (trim s) s.
Proof.
  unfold trim, trimEnd, trimStart.
  intros c Hc.
  apply in_rev in Hc.
  apply drop_while_incl in Hc.
  apply in_rev in Hc.
  apply drop_while_incl in Hc.
  exact Hc.
Qed.

(** A string of white space only (the empty string included) trims to the
    empty string. *)
Lemma trim_blank (s : jsstring) :
  forallb is_white_space s = true -> trim s = [].
Proof.
  intros H. unfold trim, trimStart.
  rewrite (drop_while_all _ _ H). reflexivity.
Qed.

(** ** The number extractor *)

Lemma emit_incl (run_rev m : jsstring) :
  In m (emit run_rev) -> incl m run_rev.
Proof.
  unfold emit. destruct (8 <=? List.length run_rev); simpl.
  - intros [<-|[]]. intros c Hc. apply in_rev. exact Hc.
  - intros [].
Qed.

(** Every match is made of code units of the run in progress or of the
    text that are in the character class... *)
Lemma scan_matches_incl (text run_rev m : jsstring) :
  In m (scan run_rev text) -> incl m (run_rev ++ text).
Proof.
  revert run_rev. induction text as [|c rest IH]; intros run_rev Hm; simpl in Hm.
  - rewrite app_nil_r. apply emit_incl. exact Hm.
  - destruct (in_class c).
    + apply IH in Hm. intros x Hx. apply Hm in Hx.
      apply in_app_or in Hx. apply in_or_app.
      destruct Hx as [[<-|Hx]|Hx]; simpl; auto.
    + apply in_app_or in Hm. destruct Hm as [Hm|Hm].
      * apply emit_incl in Hm. apply incl_appl. exact Hm.
      * apply IH in Hm. simpl in Hm.
        apply incl_appr. apply incl_tl. exact Hm.
Qed.

Lemma scan_matches_in_class (text run_rev m : jsstring) :
  Forall (fun c => in_class c = true) run_rev ->
  In m (scan run_rev text) ->
  Forall (fun c => in_class c = true) m.
Proof.
  revert run_rev. induction text as [|c rest IH]; intros run_rev Hrun Hm;
    simpl in Hm.
  - apply emit_incl in Hm. rewrite Forall_forall in *. auto.
  - destruct (in_class c) eqn:Hc.
    + apply (IH (c :: run_rev)); [constructor; assumption | exact Hm].
    + apply in_app_or in Hm. destruct Hm as [Hm|Hm].
      * apply emit_incl in Hm. rewrite Forall_forall in *. auto.
      * apply (IH []); [constructor | exact Hm].
Qed.

(** ... and has at least eight of them. *)
Lemma scan_matches_length (text run_rev m : jsstring) :
  In m (scan run_rev text) -> 8 <= List.length m.
Proof.
  assert (Hemit : forall r, In m (emit r) -> 8 <= List.length m).
  { intros r. unfold emit. destruct (8 <=? List.length r) eqn:E; simpl.
    - intros [<-|[]]. rewrite length_rev. apply Nat.leb_le. exact E.
    - intros []. }
  revert run_rev. induction text as [|c rest IH]; intros run_rev Hm;
    simpl in Hm.
  - eauto.
  - destruct (in_class c).
    + eauto.
    + apply in_app_or in Hm. destruct Hm; eauto.
Qed.

(** The scan of a run of class characters only extends the run in
    progress. *)
Lemma scan_class_run (run run_rev : jsstring) :
  Forall (fun c => in_class c = true) run ->
  scan run_rev run = emit (rev run ++ run_rev).
Proof.
  intros Hrun. revert run_rev.
  induction Hrun as [|c run Hc _ IH]; intros run_rev; simpl.
  - reflexivity.
  - rewrite Hc, IH, <- app_assoc. reflexivity.
Qed.

(** A character outside the class separates the matches before it from
    the matches after it. *)
Lemma scan_separator (before after run_rev : jsstring) (c : code_unit) :
  in_class c = false ->
  scan run_rev (before ++ c :: after)
  = scan run_rev before ++ scan [] after.
Proof.
  intros Hc. revert run_rev.
  induction before as [|b before IH]; intros run_rev; simpl.
  - rewrite Hc. reflexivity.
  - destruct (in_class b).
    + apply IH.
    + rewrite IH, app_assoc. reflexivity.
Qed.

(** The matches are the maximal runs of class characters that have at
    least eight code units, in the order of the text: a run enclosed by
    two characters outside the class contributes itself, once, between
    the matches of what precedes and of what follows, when it is long
    enough, and nothing otherwise. *)
Lemma scan_maximal_run (before run after : jsstring) (c1 c2 : code_unit) :
  in_class c1 = false ->
  in_class c2 = false ->
  Forall (fun c => in_class c = true) run ->
  scan [] (before ++ c1 :: run ++ c2 :: after)
  = scan [] before
    ++ (if 8 <=? List.length run then [run] else [])
    ++ scan [] after.
Proof.
  intros H1 H2 Hrun.
  rewrite (scan_separator before _ [] c1 H1).
  rewrite (scan_separator run after [] c2 H2).
  rewrite (scan_class_run run [] Hrun), app_nil_r.
  unfold emit. rewrite length_rev, rev_involutive. reflexivity.
Qed.

Lemma extractNumberSequences_unfold (text : jsstring) :
  extractNumberSequences text
  = filter long_enough (filter contains_digit (map trim (scan [] text))).
Proof.
  unfold extractNumberSequences, match_all.
  destruct (scan [] text); reflexivity.
Qed.

(** What the source guarantees of each token: a digit, and two code units
    that are not white space. *)
Lemma extractNumberSequences_tokens (text tok : jsstring) :
  In tok (extractNumberSequences text) ->
  contains_digit tok = true
  /\ 2 <= List.length (remove_white_space tok)
  /\ exists m, In m (scan [] text) /\ tok = trim m.
Proof.
  rewrite extractNumberSequences_unfold.
  intros H.
  apply filter_In in H. destruct H as [H Hlong].
  apply filter_In in H. destruct H as [H Hdigit].
  apply in_map_iff in H. destruct H as [m [Htrim Hm]].
  repeat split.
  - exact Hdigit.
  - apply Nat.leb_le. exact Hlong.
  - exists m. auto.
Qed.

(** On a string of digits and white space the two counts agree. *)
Lemma count_without_signs (s : jsstring) :
  Forall (fun c => is_digit c = true \/ is_white_space c = true) s ->
  List.length (remove_white_space s) = digit_count s.
Proof.
  unfold remove_white_space, digit_count.
  induction 1 as [|c t Hc _ IH]; simpl; [reflexivity|].
  destruct Hc as [Hd|Hw].
  - rewrite Hd, (digit_is_not_white_space _ Hd). simpl. f_equal. exact IH.
  - rewrite Hw. simpl.
    destruct (is_digit c) eqn:Hd.
    + apply digit_is_not_white_space in Hd. congruence.
    + exact IH.
Qed.

(** On a text without ['+'] and ['-'] the source computes what the
    specification describes. *)
Lemma extractNumberSequences_without_signs (text : jsstring) :
  ~ In 43%N text -> ~ In 45%N text ->
  extractNumberSequences text = extract_as_specified text.
Proof.
  intros Hplus Hminus.
  rewrite extractNumberSequences_unfold. unfold extract_as_specified.
  apply filter_ext_in.
  intros tok Htok.
  apply filter_In in Htok. destruct Htok as [Htok _].
  apply in_map_iff in Htok. destruct Htok as [m [<- Hm]].
  unfold long_enough, two_digits.
  rewrite count_without_signs; [reflexivity|].
  apply Forall_forall. intros c Hc.
  apply trim_incl in Hc.
  pose proof (@scan_matches_in_class text [] m (Forall_nil _) Hm) as Hclass.
  rewrite Forall_forall in Hclass.
  pose proof (Hclass c Hc) as Hin.
  apply scan_matches_incl in Hm. apply Hm in Hc. simpl in Hc.
  unfold in_class in Hin.
  rewrite !orb_true_iff in Hin.
  destruct Hin as [[[Hd|Hw]|Hp]|Hn]; auto.
  - apply N.eqb_eq in Hp. subst c. contradiction.
  - apply N.eqb_eq in Hn. subst c. contradiction.
Qed.

Example extract_order :
  extractNumberSequences (of_string "order 12 34 5678 thanks")
  = [of_string "12 34 5678"].
Proof. reflexivity. Qed.

Example extract_none :
  extractNumberSequences (of_string "no numbers here") = [].
Proof. reflexivity. Qed.

Example extract_short :
  extractNumberSequences (of_string "id AB 123456") = [].
Proof. reflexivity. Qed.

(** Tokens are neither merged nor deduplicated, and keep their order. *)
Example extract_twice :
  extractNumberSequences (of_string "a 12345678 b 87654321 c 12345678")
  = [of_string "12345678"; of_string "87654321"; of_string "12345678"].
Proof. reflexivity. Qed.

(** C2, evaluated where the source departs from the claim: the text
    "see page 7 --------" holds one run of class characters,
    " 7 --------", which has a single digit.  The claim discards a run
    with fewer than two digits; the source counts the code units that are
    not white space, signs included, and keeps the run. *)
Theorem extractNumberSequences_counts_signs :
  extractNumberSequences (of_string "see page 7 --------")
  = [of_string "7 --------"]
  /\ digit_count (of_string "7 --------") = 1
  /\ extract_as_specified (of_string "see page 7 --------") = [].
Proof. repeat split. Qed.

(** ** The camera manager *)

Lemma handleStreamError_cases (err : thrown) :
  match name_of err with
  | Some n =>
      (In n denial_names /\ handleStreamError err = PERMISSION_DENIED)
      \/ (In n missing_device_names /\ handleStreamError err = NO_CAMERA)
      \/ (n = "NotSupportedError" /\ handleStreamError err = NOT_SUPPORTED)
      \/ (~ In n denial_names /\ ~ In n missing_device_names
          /\ n <> "NotSupportedError"
          /\ handleStreamError err = DEVICE_ERROR)
  | None => handleStreamError err = DEVICE_ERROR
  end.
Proof.
  unfold handleStreamError, denial_names, missing_device_names.
  destruct (name_of err) as [n|]; [|reflexivity].
  destruct (String.eqb_spec n "NotAllowedError") as [->|H1];
    [left; simpl; auto|].
  destruct (String.eqb_spec n "PermissionDeniedError") as [->|H2];
    [left; simpl; auto|].
  destruct (String.eqb_spec n "NotFoundError") as [->|H3];
    [right; left; simpl; auto|].
  destruct (String.eqb_spec n "DevicesNotFoundError") as [->|H4];
    [right; left; simpl; auto|].
  destruct (String.eqb_spec n "NotSupportedError") as [->|H5];
    [right; right; left; auto|].
  right; right; right. simpl. intuition congruence.
Qed.

(** C7 as stated fails when the capability is present and the stream
    request is rejected with [NotSupportedError]: the request is issued,
    the rejection is neither a denial nor a missing device, and the
    failure is [NOT_SUPPORTED], not [DEVICE_ERROR]. *)
Lemma requestCameraAccess_NotSupportedError :
  requestCameraAccess true back_config
    (Throw (Thrown_Error "NotSupportedError" "")) new_CameraManager
  = (Throw (Camera.createError NOT_SUPPORTED), new_CameraManager,
     [Ev_getUserMedia back_config])
  /\ Camera.createError NOT_SUPPORTED <> Camera.createError DEVICE_ERROR
  /\ ~ In "NotSupportedError" denial_names
  /\ ~ In "NotSupportedError" missing_device_names.
Proof.
  repeat split; try discriminate;
    simpl; intros H; repeat destruct H as [H|H]; discriminate || exact H.
Qed.

(** C7, amended: a request for camera access that fails, fails with
    [NOT_SUPPORTED] when the capability is absent (no stream request is
    issued) or when the stream request is rejected with
    [NotSupportedError]; with [PERMISSION_DENIED] when it is rejected with
    [NotAllowedError] or [PermissionDeniedError]; with [NO_CAMERA] when it
    is rejected with [NotFoundError] or [DevicesNotFoundError]; and with
    [DEVICE_ERROR] when it is rejected with anything else.  The manager
    is left as it was. *)
Theorem requestCameraAccess_failure_kind
    (has_gum : bool) (config : CameraConfig)
    (outcome : completion MediaStream) (cm : CameraManager) (err : thrown) :
  fst (fst (requestCameraAccess has_gum config outcome cm)) = Throw err ->
  (has_gum = false
   /\ requestCameraAccess has_gum config outcome cm
      = (Throw (Camera.createError NOT_SUPPORTED), cm, []))
  \/ (has_gum = true
      /\ exists fault kind,
           outcome = Throw fault
           /\ requestCameraAccess has_gum config outcome cm
              = (Throw (Camera.createError kind), cm, [Ev_getUserMedia config])
           /\ match name_of fault with
              | Some n =>
                  (In n denial_names /\ kind = PERMISSION_DENIED)
                  \/ (In n missing_device_names /\ kind = NO_CAMERA)
                  \/ (n = "NotSupportedError" /\ kind = NOT_SUPPORTED)
                  \/ (~ In n denial_names /\ ~ In n missing_device_names
                      /\ n <> "NotSupportedError" /\ kind = DEVICE_ERROR)
              | None => kind = DEVICE_ERROR
              end).
Proof.
  unfold requestCameraAccess, requestCameraAccess_call.
  destruct has_gum; simpl.
  - destruct outcome as [s|fault]; simpl; [discriminate|].
    intros _. right. split; [reflexivity|].
    exists fault, (handleStreamError fault).
    repeat split. apply handleStreamError_cases.
  - intros _. left. auto.
Qed.

Lemma requestCameraAccess_failure_kind_witness :
  let has_gum := true in
  let config := front_config in
  let outcome := Throw (Thrown_Error "NotAllowedError" "denied") in
  let cm := new_CameraManager in
  let err := Camera.createError PERMISSION_DENIED in
  fst (fst (requestCameraAccess has_gum config outcome cm)) = Throw err
  /\ ((has_gum = false
       /\ requestCameraAccess has_gum config outcome cm
          = (Throw (Camera.createError NOT_SUPPORTED), cm, []))
      \/ (has_gum = true
          /\ exists fault kind,
               outcome = Throw fault
               /\ requestCameraAccess has_gum config outcome cm
                  = (Throw (Camera.createError kind), cm,
                     [Ev_getUserMedia config])
               /\ match name_of fault with
                  | Some n =>
                      (In n denial_names /\ kind = PERMISSION_DENIED)
                      \/ (In n missing_device_names /\ kind = NO_CAMERA)
                      \/ (n = "NotSupportedError" /\ kind = NOT_SUPPORTED)
                      \/ (~ In n denial_names /\ ~ In n missing_device_names
                          /\ n <> "NotSupportedError" /\ kind = DEVICE_ERROR)
                  | None => kind = DEVICE_ERROR
                  end)).
Proof.
  split.
  - reflexivity.
  - apply (@requestCameraAccess_failure_kind true front_config
             (Throw (Thrown_Error "NotAllowedError" "denied"))
             new_CameraManager (Camera.createError PERMISSION_DENIED)).
    reflexivity.
Defined.

Lemma reachable_consistent (cm : CameraManager) :
  reachable cm -> consistent cm.
Proof.
  induction 1 as [|cm gum config outcome _ IH|cm v _ IH|cm _ IH].
  - unfold consistent; simpl. intuition.
  - unfold requestCameraAccess, requestCameraAccess_call.
    destruct gum; simpl; [|exact IH].
    destruct outcome as [s|fault]; simpl; [|exact IH].
    unfold consistent, stream_acquired.
    destruct (getVideoTracks s); simpl; intuition discriminate.
  - unfold attachToVideoElement.
    destruct (stream (state cm)) eqn:Hs; simpl; [|exact IH].
    unfold consistent in *; simpl. rewrite Hs in *.
    intuition discriminate.
  - unfold stopCamera, consistent.
    destruct (stream (state cm)), (videoElement cm); simpl; intuition.
Qed.

Lemma stopCamera_returns (cm : CameraManager) :
  fst (fst (stopCamera cm)) = Normal tt.
Proof.
  unfold stopCamera.
  destruct (stream (state cm)), (videoElement cm); reflexivity.
Qed.

Lemma stopCamera_state (cm : CameraManager) :
  snd (fst (stopCamera cm))
  = {| state := {| stream := None; isActive := false; deviceId := None |};
       videoElement := None |}.
Proof.
  unfold stopCamera.
  destruct (stream (state cm)), (videoElement cm); reflexivity.
Qed.

(** What [stopCamera] does to the platform: it stops every track of the
    stream it holds, then detaches the video element it holds. *)
Lemma stopCamera_events (cm : CameraManager) :
  snd (stopCamera cm)
  = match stream (state cm) with
    | Some s => map Ev_track_stop (getTracks s)
    | None => []
    end
    ++ match videoElement cm with
       | Some v => [Ev_set_srcObject v None]
       | None => []
       end.
Proof.
  unfold stopCamera.
  destruct (stream (state cm)), (videoElement cm); reflexivity.
Qed.

(** C8: stopping the camera is idempotent.  On a manager without an
    active stream [stopCamera] returns normally, performs no effect and
    leaves the manager as it is, inactive; and however often it is called,
    and on whatever manager, it returns normally and leaves the manager
    inactive with the stream handle and the device id nulled. *)
Theorem stopCamera_idempotent :
  (forall cm,
      reachable cm -> isActive (state cm) = false ->
      stopCamera cm = (Normal tt, cm, [])
      /\ isActive (state (snd (fst (stopCamera cm)))) = false)
  /\ (forall cm n,
         fst (fst (stopCamera (stopCamera_times n cm))) = Normal tt
         /\ state (stopCamera_times (S n) cm)
            = {| stream := None; isActive := false; deviceId := None |})
  /\ (forall cm,
         stopCamera (snd (fst (stopCamera cm)))
         = (Normal tt, snd (fst (stopCamera cm)), [])).
Proof.
  split; [|split].
  - intros cm Hreach Hinactive.
    destruct (reachable_consistent cm Hreach) as [Hiff Hnone].
    pose proof (proj1 Hiff Hinactive) as Hstream.
    destruct (Hnone Hstream) as [Hdev Hvid].
    unfold stopCamera. rewrite Hstream, Hvid. simpl.
    destruct cm as [[s act dev] vid]; simpl in *.
    subst. auto.
  - intros cm n. split.
    + apply stopCamera_returns.
    + unfold stopCamera_times. simpl. rewrite stopCamera_state. reflexivity.
  - intros cm. rewrite stopCamera_state. reflexivity.
Qed.

Lemma stopCamera_idempotent_witness :
  reachable new_CameraManager
  /\ isActive (state new_CameraManager) = false
  /\ stopCamera new_CameraManager = (Normal tt, new_CameraManager, [])
  /\ isActive (state (snd (fst (stopCamera new_CameraManager)))) = false.
Proof.
  split; [apply reach_new|].
  split; [reflexivity|].
  apply (proj1 stopCamera_idempotent new_CameraManager).
  - apply reach_new.
  - reflexivity.
Defined.

(** ** The recognition engine *)

Lemma isReady_fields (e : OCREngine) :
  isReady e = true ->
  exists w, worker e = Some w /\ isInitialized e = true.
Proof.
  unfold isReady. intros H. apply andb_true_iff in H.
  destruct H as [Hinit Hw].
  destruct (worker e) as [w|]; [|discriminate].
  exists w. auto.
Qed.

(** The text test of the source, [!text || text.trim().length === 0],
    holds of the strings made of white space only. *)
Lemma blank_test (s : jsstring) :
  forallb is_white_space s = true ->
  (match s with [] => true | _ => false end
   || (List.length (trim s) =? 0)) = true.
Proof.
  intros H. rewrite (trim_blank _ H). apply orb_true_r.
Qed.







(** C9: the language of a successful result is the language argument of
    the call, ['eng'] when it is omitted, whatever the worker
    recognised. *)
Theorem recognizeText_language
    (language : option string) (run : external_run RecognizeData)
    (e : OCREngine) (r : OCRResult) :
  fst (recognizeText language run e) = Normal r ->
  OCR.language r = match language with Some l => l | None => "eng" end.
Proof.
  unfold recognizeText.
  destruct (worker e) as [w|]; [|discriminate].
  destruct (isInitialized e); [|discriminate].
  destruct (settles run) as [d|fault].
  - destruct (match data_text d with [] => true | _ => false end
              || (List.length (trim (data_text d)) =? 0)).
    + destruct (recognizeText_catch (OCR.createError NO_TEXT_FOUND) e)
        as [c evs] eqn:Hc.
      unfold recognizeText_catch in Hc. simpl in Hc.
      injection Hc as <- _. discriminate.
    + simpl. intros H. injection H as <-. reflexivity.
  - destruct (recognizeText_catch fault e) as [c evs] eqn:Hc.
    unfold recognizeText_catch in Hc.
    destruct fault as [caught|]; [|injection Hc as <- _; discriminate].
    destruct (match name_of caught with
              | Some n => String.eqb n "NO_TEXT_FOUND"
              | None => false
              end); injection Hc as <- _; discriminate.
Qed.

Lemma recognizeText_language_witness :
  fst (recognizeText (Some "swe") (recognized "Hej 12345678") ready_engine)
  = Normal {| text := of_string "Hej 12345678";
              confidence := (87 # 1)%Q; language := "swe" |}
  /\ OCR.language {| text := of_string "Hej 12345678";
                     confidence := (87 # 1)%Q; language := "swe" |}
     = "swe".
Proof.
  split; [reflexivity|].
  apply (@recognizeText_language (Some "swe") (recognized "Hej 12345678")
           ready_engine).
  reflexivity.
Defined.



(** ** The workflow: reset and capture *)

(** What [handleReset] clears, from any state: the frame, the result and
    the location; the idle document replaces whatever was on display, an
    error message included. *)
Lemma handleReset_clears (a : OCRInterface) :
  let a' := fst (handleReset a) in
  stage a' = Idle
  /\ container a' = IdleView
  /\ capturedImageData a' = None
  /\ lastResult a' = None
  /\ capturedLocation a' = None.
Proof. repeat split. Qed.

(** What it does not touch. *)
Lemma handleReset_keeps (a : OCRInterface) :
  let a' := fst (handleReset a) in
  extractedNumbers a' = extractedNumbers a
  /\ cameraManager a' = cameraManager a
  /\ ocrEngine a' = ocrEngine a
  /\ isStartingCamera a' = isStartingCamera a.
Proof. repeat split. Qed.

(** C1, evaluated where the source departs from the claim.  The workflow
    is taken through camera start, capture and recognition of the text
    "order 12 34 5678 thanks" to the Results stage, where the token list
    holds "12 34 5678".  The reset action then yields stage Idle with the
    frame, the result and the location cleared, but the token list still
    holds "12 34 5678": [handleReset] has no assignment to
    [extractedNumbers]. *)
Theorem handleReset_leaves_extractedNumbers :
  stage results_shown = Results
  /\ extractedNumbers results_shown = [of_string "12 34 5678"]
  /\ stage (fst (handleReset results_shown)) = Idle
  /\ capturedImageData (fst (handleReset results_shown)) = None
  /\ lastResult (fst (handleReset results_shown)) = None
  /\ capturedLocation (fst (handleReset results_shown)) = None
  /\ extractedNumbers (fst (handleReset results_shown))
     = [of_string "12 34 5678"]
  /\ extractedNumbers (fst (handleReset results_shown)) <> [].
Proof. repeat split. discriminate. Qed.

(** When [capturePhoto] throws, [handleCapture] only puts the error on
    display: the camera manager is left as it is, and no track is
    stopped. *)
Lemma handleCapture_failure (context2d : bool) (pixels : list N)
    (a : OCRInterface) (err : thrown) :
  fst (capturePhoto context2d pixels (cameraManager a)) = Throw err ->
  fst (handleCapture context2d pixels a)
  = set_container (ErrorView "Failed to capture photo. Please try again.") a
  /\ snd (handleCapture context2d pixels a)
     = map Ev_camera (snd (capturePhoto context2d pixels (cameraManager a)))
       ++ [Ev_render (ErrorView "Failed to capture photo. Please try again.")]
  /\ forall t, ~ In (Ev_camera (Ev_track_stop t))
                    (snd (handleCapture context2d pixels a)).
Proof.
  unfold handleCapture.
  destruct (capturePhoto context2d pixels (cameraManager a)) as [r evs] eqn:Hc.
  simpl. intros ->. simpl.
  repeat split.
  intros t Hin. apply in_app_or in Hin.
  destruct Hin as [Hin|[Hin|[]]]; [|discriminate].
  apply in_map_iff in Hin. destruct Hin as [ev [Hev Hin]].
  injection Hev as ->.
  unfold capturePhoto in Hc.
  repeat match type of Hc with
         | context [match ?x with _ => _ end] => destruct x
         end;
    injection Hc as _ <-; simpl in Hin;
    try contradiction; destruct Hin as [Hin|[]]; discriminate.
Qed.

(** A capture that succeeds stops the camera before the photo is put on
    display. *)
Lemma handleCapture_success (context2d : bool) (pixels : list N)
    (a : OCRInterface) (img : ImageData) :
  fst (capturePhoto context2d pixels (cameraManager a)) = Normal img ->
  stage (fst (handleCapture context2d pixels a)) = PhotoCaptured
  /\ capturedImageData (fst (handleCapture context2d pixels a)) = Some img
  /\ stream (state (cameraManager (fst (handleCapture context2d pixels a))))
     = None
  /\ isActive (state (cameraManager (fst (handleCapture context2d pixels a))))
     = false.
Proof.
  unfold handleCapture, do_stopCamera.
  destruct (capturePhoto context2d pixels (cameraManager a)) as [r evs].
  simpl. intros ->.
  pose proof (stopCamera_returns (cameraManager a)) as Hret.
  pose proof (stopCamera_state (cameraManager a)) as Hstate.
  destruct (stopCamera (cameraManager a)) as [[r cm] sevs].
  simpl in *. subst r cm. simpl. repeat split.
Qed.

(** The [catch] clause of [handleStartCamera] does stop the camera, after
    it has put the error on display. *)
Lemma handleStartCamera_catch_stops (err : thrown) (a : OCRInterface) :
  exists errorMessage stops,
    snd (fst (handleStartCamera_catch err a))
    = Ev_render (ErrorView errorMessage) :: map Ev_camera stops
    /\ stops = snd (stopCamera (cameraManager a))
    /\ isActive (state (cameraManager (fst (fst (handleStartCamera_catch err a)))))
       = false
    /\ stream (state (cameraManager (fst (fst (handleStartCamera_catch err a)))))
       = None.
Proof.
  unfold handleStartCamera_catch, renderError, render, do_stopCamera.
  simpl.
  destruct (stopCamera (cameraManager a)) as [[r cm] evs] eqn:Hstop.
  pose proof (stopCamera_state (cameraManager a)) as Hstate.
  rewrite Hstop in Hstate. simpl in Hstate. subst cm.
  simpl. do 2 eexists. repeat split.
Qed.

(** C3, evaluated where the source departs from the claim.  The camera
    has been started and the preview attached, but the video has not yet
    received a frame, so that reading the pixels back fails.  The capture
    puts the error on display; no track is stopped, and the camera
    manager still holds the live stream and is still active.  The same
    happens with a loaded preview when the canvas yields no 2D
    context. *)
Theorem handleCapture_failure_leaves_camera_active :
  stage camera_just_started = CameraActive
  /\ isActive (state (cameraManager camera_just_started)) = true
  /\ handleCapture true [] camera_just_started
     = (set_container
          (ErrorView "Failed to capture photo. Please try again.")
          camera_just_started,
        [Ev_camera (Ev_drawImage preview_without_frame);
         Ev_render (ErrorView "Failed to capture photo. Please try again.")])
  /\ stage (fst (handleCapture true [] camera_just_started)) = Error
  /\ stream (state (cameraManager
                      (fst (handleCapture true [] camera_just_started))))
     = Some back_stream
  /\ isActive (state (cameraManager
                        (fst (handleCapture true [] camera_just_started))))
     = true
  /\ stage (fst (handleCapture false [] camera_started)) = Error
  /\ isActive (state (cameraManager
                        (fst (handleCapture false [] camera_started))))
     = true.
Proof. repeat split. Qed.

(** ** The workflow: starting the camera *)

Lemma handleStartCamera_catch_returns (err : thrown) (a : OCRInterface) :
  snd (handleStartCamera_catch err a) = None.
Proof.
  unfold handleStartCamera_catch.
  destruct (renderError _ a) as [a1 evs1].
  destruct (do_stopCamera a1) as [r [a2 evs2]].
  reflexivity.
Qed.

Lemma handleStartCamera_attach_returns (v : HTMLVideoElement)
    (a : OCRInterface) :
  snd (handleStartCamera_attach v a) = None.
Proof.
  unfold handleStartCamera_attach.
  destruct (attachToVideoElement v (cameraManager a)) as [[[u|err] cm] evs].
  - reflexivity.
  - pose proof (handleStartCamera_catch_returns err (set_cameraManager cm a)) as H.
    destruct (handleStartCamera_catch err (set_cameraManager cm a))
      as [[a1 evs1] pc].
    exact H.
Qed.

Lemma access_settles_flag (env : StartEnv) (config : CameraConfig)
    (outcome : completion MediaStream) (a : OCRInterface) :
  isStartingCamera (snd (access_settles env config outcome a))
  = isStartingCamera a.
Proof.
  unfold access_settles, requestCameraAccess_call.
  destruct (has_getUserMedia env); [|reflexivity]. simpl.
  destruct (requestCameraAccess_resume outcome (cameraManager a)) as [r cm].
  reflexivity.
Qed.

(** A step brings the invocation closer to its end... *)
Lemma handleStartCamera_resume_remaining (env : StartEnv) (pc : StartPC)
    (a : OCRInterface) :
  remaining (snd (handleStartCamera_resume env pc a)) < remaining (Some pc).
Proof.
  destruct pc as [| |v|v]; simpl.
  - destruct (negb _); simpl; lia.
  - destruct (container a); try (rewrite handleStartCamera_catch_returns);
      simpl; lia.
  - destruct (access_settles env back_config (back_camera env) a) as [[s|err] a1].
    + rewrite handleStartCamera_attach_returns. simpl. lia.
    + simpl. lia.
  - destruct (access_settles env front_config (front_camera env) a) as [[s|err] a1].
    + rewrite handleStartCamera_attach_returns. simpl. lia.
    + rewrite handleStartCamera_catch_returns. simpl. lia.
Qed.

(** ... and, as long as the invocation has not returned, leaves the lock
    taken. *)
Lemma handleStartCamera_resume_flag (env : StartEnv) (pc : StartPC)
    (a : OCRInterface) :
  isStartingCamera a = true ->
  snd (handleStartCamera_resume env pc a) <> None ->
  isStartingCamera (fst (fst (handleStartCamera_resume env pc a))) = true.
Proof.
  intros Hflag.
  destruct pc as [| |v|v]; simpl.
  - destruct (negb _); simpl; [congruence | intros _; exact Hflag].
  - destruct (container a);
      try (rewrite handleStartCamera_catch_returns; congruence).
    simpl. intros _; exact Hflag.
  - pose proof (access_settles_flag env back_config (back_camera env) a) as Hs.
    destruct (access_settles env back_config (back_camera env) a) as [[s|err] a1].
    + rewrite handleStartCamera_attach_returns. congruence.
    + simpl in *. intros _. congruence.
  - destruct (access_settles env front_config (front_camera env) a) as [[s|err] a1].
    + rewrite handleStartCamera_attach_returns. congruence.
    + rewrite handleStartCamera_catch_returns. congruence.
Qed.

Lemma advance_remaining (env : StartEnv) (s : suspended) :
  remaining (snd (advance env s)) <= Nat.pred (remaining (snd s)).
Proof.
  destruct s as [[a evs] [pc|]]; simpl; [|lia].
  pose proof (handleStartCamera_resume_remaining env pc a) as H.
  destruct (handleStartCamera_resume env pc a) as [[a1 evs1] pc1].
  simpl in *. lia.
Qed.

Lemma handleStartCamera_steps_remaining (env : StartEnv) (n : nat)
    (a : OCRInterface) :
  remaining (snd (handleStartCamera_steps env n a)) <= 4 - n.
Proof.
  induction n as [|n IH].
  - simpl. unfold handleStartCamera_call.
    destruct (isStartingCamera a); simpl; lia.
  - change (handleStartCamera_steps env (S n) a)
      with (advance env (handleStartCamera_steps env n a)).
    pose proof (advance_remaining env (handleStartCamera_steps env n a)).
    lia.
Qed.

(** The method returns: after four steps no [await] is pending. *)
Lemma handleStartCamera_returns (env : StartEnv) (a : OCRInterface) :
  snd (handleStartCamera env a) = None.
Proof.
  pose proof (handleStartCamera_steps_remaining env 4 a) as H.
  unfold handleStartCamera.
  destruct (snd (handleStartCamera_steps env 4 a)) as [[| |v|v]|];
    simpl in H; try lia.
  reflexivity.
Qed.

(** While an invocation that found the lock free is in flight, the lock
    is taken. *)
Lemma handleStartCamera_steps_flag (env : StartEnv) (n : nat)
    (a : OCRInterface) :
  isStartingCamera a = false ->
  snd (handleStartCamera_steps env n a) <> None ->
  isStartingCamera (fst (fst (handleStartCamera_steps env n a))) = true.
Proof.
  intros Hfree.
  induction n as [|n IH]; simpl.
  - unfold handleStartCamera_call. rewrite Hfree. reflexivity.
  - destruct (handleStartCamera_steps env n a) as [[a1 evs1] [pc|]];
      simpl in *; [|congruence].
    intros Hpc.
    assert (Hflag : isStartingCamera a1 = true) by (apply IH; discriminate).
    pose proof (handleStartCamera_resume_flag env pc a1 Hflag) as Hres.
    destruct (handleStartCamera_resume env pc a1) as [[a2 evs2] pc2].
    simpl in *. auto.
Qed.

Lemma advance_iter_steps (env : StartEnv) (k n : nat) (a : OCRInterface) :
  Nat.iter k (advance env) (handleStartCamera_steps env n a)
  = handleStartCamera_steps env (k + n) a.
Proof.
  induction k as [|k IH]; simpl; [reflexivity|].
  rewrite IH. reflexivity.
Qed.

(** A call that finds the lock taken does nothing. *)
Lemma handleStartCamera_call_locked (env : StartEnv) (a : OCRInterface) :
  isStartingCamera a = true ->
  handleStartCamera_call env a = (a, [], None).
Proof.
  intros H. unfold handleStartCamera_call. rewrite H. reflexivity.
Qed.

(** *** Counting the stream requests *)

Lemma stream_requests_app (l1 l2 : list event) :
  stream_requests (l1 ++ l2) = stream_requests l1 + stream_requests l2.
Proof.
  unfold stream_requests. rewrite filter_app, length_app. reflexivity.
Qed.

Lemma stopCamera_requests (cm : CameraManager) :
  stream_requests (map Ev_camera (snd (stopCamera cm))) = 0.
Proof.
  unfold stopCamera.
  destruct (stream (state cm)) as [s|], (videoElement cm) as [v|]; simpl;
    try reflexivity;
    rewrite ?map_app, ?stream_requests_app; simpl;
    induction (getTracks s); simpl; auto.
Qed.

Lemma handleStartCamera_catch_requests (err : thrown) (a : OCRInterface) :
  stream_requests (snd (fst (handleStartCamera_catch err a))) = 0.
Proof.
  destruct (handleStartCamera_catch_stops err a) as [m [stops [-> [-> _]]]].
  change (Ev_render (ErrorView m) :: ?l) with ([Ev_render (ErrorView m)] ++ l).
  rewrite stream_requests_app, stopCamera_requests. reflexivity.
Qed.

Lemma handleStartCamera_attach_requests (v : HTMLVideoElement)
    (a : OCRInterface) :
  stream_requests (snd (fst (handleStartCamera_attach v a))) = 0.
Proof.
  unfold handleStartCamera_attach, attachToVideoElement.
  destruct (stream (state (cameraManager a))) as [s|]; simpl.
  - reflexivity.
  - pose proof (handleStartCamera_catch_requests
                  (new_Error "No active camera stream")
                  (set_cameraManager (cameraManager a) a)) as H.
    destruct (handleStartCamera_catch _ _) as [[a1 evs1] pc].
    exact H.
Qed.

Lemma access_call_requests (env : StartEnv) (config : CameraConfig) :
  stream_requests (access_call env config)
  = if has_getUserMedia env then 1 else 0.
Proof.
  unfold access_call, requestCameraAccess_call.
  destruct (has_getUserMedia env); reflexivity.
Qed.

(** Each step spends from the budget what it requests. *)
Lemma handleStartCamera_resume_budget (env : StartEnv) (pc : StartPC)
    (a : OCRInterface) :
  stream_requests (snd (fst (handleStartCamera_resume env pc a)))
  + budget (snd (handleStartCamera_resume env pc a))
  <= budget (Some pc).
Proof.
  destruct pc as [| |v|v]; simpl.
  - destruct (negb _); simpl; lia.
  - destruct (container a);
      try (rewrite handleStartCamera_catch_requests,
                   handleStartCamera_catch_returns; simpl; lia).
    simpl. rewrite access_call_requests.
    destruct (has_getUserMedia env); lia.
  - destruct (access_settles env back_config (back_camera env) a) as [[s|err] a1].
    + rewrite handleStartCamera_attach_requests,
              handleStartCamera_attach_returns. simpl. lia.
    + simpl. rewrite access_call_requests.
      destruct (has_getUserMedia env); lia.
  - destruct (access_settles env front_config (front_camera env) a) as [[s|err] a1].
    + rewrite handleStartCamera_attach_requests,
              handleStartCamera_attach_returns. simpl. lia.
    + rewrite handleStartCamera_catch_requests,
              handleStartCamera_catch_returns. simpl. lia.
Qed.

Lemma handleStartCamera_steps_budget (env : StartEnv) (n : nat)
    (a : OCRInterface) :
  stream_requests (snd (fst (handleStartCamera_steps env n a)))
  + budget (snd (handleStartCamera_steps env n a))
  <= 2.
Proof.
  induction n as [|n IH].
  - simpl. unfold handleStartCamera_call.
    destruct (isStartingCamera a); simpl.
    + lia.
    + unfold checkCameraAvailability.
      destruct (negb (has_getUserMedia env)); [simpl; lia|].
      destruct (devices env); simpl; lia.
  - change (handleStartCamera_steps env (S n) a)
      with (advance env (handleStartCamera_steps env n a)).
    destruct (handleStartCamera_steps env n a) as [[a1 evs1] [pc|]];
      simpl in *; [|exact IH].
    pose proof (handleStartCamera_resume_budget env pc a1) as H.
    destruct (handleStartCamera_resume env pc a1) as [[a2 evs2] pc2].
    simpl in *. rewrite stream_requests_app. lia.
Qed.

(** With a camera available and the first request granted, a call that
    finds the lock free issues one stream request. *)
Lemma handleStartCamera_one_request (env : StartEnv) (a : OCRInterface)
    (s : MediaStream) :
  isStartingCamera a = false ->
  fst (checkCameraAvailability (has_getUserMedia env) (devices env)) = true ->
  back_camera env = Normal s ->
  stream_requests (snd (fst (handleStartCamera env a))) = 1.
Proof.
  intros Hfree Havail Hback.
  assert (Hgum : has_getUserMedia env = true).
  { unfold checkCameraAvailability in Havail.
    destruct (has_getUserMedia env); [reflexivity | discriminate]. }
  unfold handleStartCamera. simpl.
  unfold handleStartCamera_call. rewrite Hfree. simpl.
  rewrite Havail. simpl.
  unfold access_settles, access_call. rewrite Hgum, Hback. simpl.
  unfold handleStartCamera_attach, attachToVideoElement, stream_acquired.
  simpl.
  destruct (getVideoTracks s); simpl;
    rewrite !stream_requests_app; simpl;
    unfold checkCameraAvailability; simpl;
    destruct (devices env); reflexivity.
Qed.

(** C5 as stated fails on a device whose only camera faces the user: the
    second call arrives while the first waits for its timer and is
    dropped, and yet two stream requests result, the rejected one for the
    back camera and the retry for the front camera, both issued by the
    first call. *)
Lemma handleStartCamera_twice_two_requests :
  snd (handleStartCamera_steps env_front_only 1 new_OCRInterface)
  = Some Await_timeout
  /\ snd (handleStartCamera_twice env_front_only env_front_only 1
            new_OCRInterface)
     = None
  /\ stream_requests
       (snd (fst (fst (handleStartCamera_twice env_front_only env_front_only 1
                         new_OCRInterface))))
     = 2
  /\ stream_requests
       (snd (fst (fst (handleStartCamera_twice env_front_only env_front_only 1
                         new_OCRInterface))))
     <> 1.
Proof. repeat split. discriminate. Qed.

(** C5, amended: a call of the camera start that arrives while an earlier
    call is in flight is a silent no-op: it returns at once, changes
    nothing, checks no availability, requests no stream and raises no
    error.  The two calls together therefore do what the first call does
    alone: at most two stream requests (the second being the retry with
    the front camera), and exactly one when a camera is available and the
    first request is granted. *)
Theorem handleStartCamera_single_flight
    (env env2 : StartEnv) (n : nat) (a : OCRInterface) :
  isStartingCamera a = false ->
  snd (handleStartCamera_steps env n a) <> None ->
  handleStartCamera_call env2 (fst (fst (handleStartCamera_steps env n a)))
  = (fst (fst (handleStartCamera_steps env n a)), [], None)
  /\ handleStartCamera_twice env env2 n a = (handleStartCamera env a, None)
  /\ stream_requests (snd (fst (fst (handleStartCamera_twice env env2 n a))))
     <= 2
  /\ (forall s,
         fst (checkCameraAvailability (has_getUserMedia env) (devices env))
         = true ->
         back_camera env = Normal s ->
         stream_requests
           (snd (fst (fst (handleStartCamera_twice env env2 n a))))
         = 1).
Proof.
  intros Hfree Hflight.
  pose proof (handleStartCamera_steps_flag env n a Hfree Hflight) as Hflag.
  pose proof (handleStartCamera_call_locked env2 _ Hflag) as Hcall.
  assert (Htwice :
            handleStartCamera_twice env env2 n a = (handleStartCamera env a, None)).
  { pose proof (handleStartCamera_steps_remaining env n a) as Hrem.
    assert (Hn : 4 - n + n = 4).
    { destruct (snd (handleStartCamera_steps env n a)) as [[| |v|v]|] eqn:E;
        unfold remaining in Hrem; try lia. congruence. }
    unfold handleStartCamera_twice, handleStartCamera.
    replace (handleStartCamera_steps env 4 a)
      with (handleStartCamera_steps env (4 - n + n) a)
      by (rewrite Hn; reflexivity).
    rewrite <- advance_iter_steps.
    destruct (handleStartCamera_steps env n a) as [[a1 evs1] pc1].
    simpl in Hcall. rewrite Hcall, app_nil_r. reflexivity. }
  split; [exact Hcall|].
  split; [exact Htwice|].
  rewrite Htwice. simpl.
  split.
  - pose proof (handleStartCamera_steps_budget env 4 a) as H.
    unfold handleStartCamera. lia.
  - intros s Havail Hback.
    exact (handleStartCamera_one_request env a s Hfree Havail Hback).
Qed.

Lemma handleStartCamera_single_flight_witness :
  isStartingCamera new_OCRInterface = false
  /\ snd (handleStartCamera_steps env_back_ok 1 new_OCRInterface) <> None
  /\ handleStartCamera_twice env_back_ok env_back_ok 1 new_OCRInterface
     = (handleStartCamera env_back_ok new_OCRInterface, None)
  /\ stream_requests
       (snd (fst (fst (handleStartCamera_twice env_back_ok env_back_ok 1
                         new_OCRInterface))))
     = 1.
Proof.
  assert (Hfree : isStartingCamera new_OCRInterface = false) by reflexivity.
  assert (Hflight :
            snd (handleStartCamera_steps env_back_ok 1 new_OCRInterface)
            <> None) by discriminate.
  split; [exact Hfree|].
  split; [exact Hflight|].
  destruct (handleStartCamera_single_flight env_back_ok env_back_ok 1
              new_OCRInterface Hfree Hflight)
    as [_ [Htwice [_ Hone]]].
  split; [exact Htwice|].
  apply (Hone back_stream); reflexivity.
Defined.

(** ** The workflow: processing *)

Lemma handleProcessOCR_catch_stage (err : thrown) (a : OCRInterface) :
  stage (fst (handleProcessOCR_catch err a)) = Error.
Proof. reflexivity. Qed.

(** Progress reports only rewrite the processing document. *)
Lemma updateProgress_fields (p : OCRProgress) (a : OCRInterface) :
  (stage a = Processing -> stage (updateProgress p a) = Processing)
  /\ cameraManager (updateProgress p a) = cameraManager a
  /\ ocrEngine (updateProgress p a) = ocrEngine a
  /\ capturedImageData (updateProgress p a) = capturedImageData a
  /\ lastResult (updateProgress p a) = lastResult a
  /\ extractedNumbers (updateProgress p a) = extractedNumbers a
  /\ isStartingCamera (updateProgress p a) = isStartingCamera a
  /\ capturedLocation (updateProgress p a) = capturedLocation a.
Proof.
  unfold updateProgress, stage.
  destruct (container a); simpl; repeat split; auto; congruence.
Qed.

Lemma deliver_fields (evs : list OCR.event) (a : OCRInterface) :
  (stage a = Processing -> stage (deliver evs a) = Processing)
  /\ cameraManager (deliver evs a) = cameraManager a
  /\ ocrEngine (deliver evs a) = ocrEngine a
  /\ capturedImageData (deliver evs a) = capturedImageData a
  /\ lastResult (deliver evs a) = lastResult a
  /\ extractedNumbers (deliver evs a) = extractedNumbers a
  /\ isStartingCamera (deliver evs a) = isStartingCamera a
  /\ capturedLocation (deliver evs a) = capturedLocation a.
Proof.
  unfold deliver. revert a.
  induction evs as [|ev evs IH]; intros a; simpl.
  - repeat split; auto.
  - destruct ev as [cb p| |w|w]; try apply IH.
    destruct (updateProgress_fields p a)
      as (Hs & Hcm & He & Hi & Hr & Hn & Hf & Hl).
    destruct (IH (updateProgress p a))
      as (Hs' & Hcm' & He' & Hi' & Hr' & Hn' & Hf' & Hl').
    repeat split; try congruence. auto.
Qed.

Lemma ensure_initialized_stage (env : ProcessEnv) (a : OCRInterface) :
  stage a = Processing ->
  stage (fst (snd (ensure_initialized env a))) = Processing.
Proof.
  intros Hs. unfold ensure_initialized.
  destruct (isReady (ocrEngine a)); [exact Hs|].
  destruct (initialize _ _ _) as [[r e] evs]. simpl.
  apply deliver_fields. exact Hs.
Qed.

Lemma ensure_initialized_cameraManager (env : ProcessEnv) (a : OCRInterface) :
  cameraManager (fst (snd (ensure_initialized env a))) = cameraManager a.
Proof.
  unfold ensure_initialized.
  destruct (isReady (ocrEngine a)); [reflexivity|].
  destruct (initialize _ _ _) as [[r e] evs]. simpl.
  destruct (deliver_fields evs (set_ocrEngine e a)) as (_ & Hcm & _).
  exact Hcm.
Qed.

(** Processing never touches the camera: on its failure paths the camera
    is as the capture left it. *)
Lemma handleProcessOCR_cameraManager (env : ProcessEnv) (a : OCRInterface) :
  cameraManager (fst (fst (handleProcessOCR env a))) = cameraManager a.
Proof.
  unfold handleProcessOCR.
  destruct (capturedImageData a) as [img|]; [|reflexivity].
  simpl.
  destruct (getCaptureLocation (geolocation env)) as [locationPromise evs2].
  pose proof (ensure_initialized_cameraManager env
                (set_container (ProcessingView "Initializing OCR..." 0) a))
    as Hcm.
  destruct (ensure_initialized env _) as [[u|err] [a2 evs3]]; simpl in Hcm.
  - destruct (negb (canvas_context2d env)); [exact Hcm|].
    destruct (recognizeText None (recognize_run env) (ocrEngine a2))
      as [[r|err] oevs];
      destruct (deliver_fields oevs a2) as (_ & Hcm' & _).
    + destruct locationPromise as [l|]; simpl; congruence.
    + simpl. congruence.
  - exact Hcm.
Qed.

(** The outcome of the lookup plays no part in the engine start-up. *)
Lemma ensure_initialized_geolocation (geo : Geolocation) (env : ProcessEnv)
    (a : OCRInterface) :
  ensure_initialized (with_geolocation geo env) a = ensure_initialized env a.
Proof. reflexivity. Qed.

(** How a processing run ends.  Either the recognition path fails, and
    the run ends in Error whatever the location service does; or it
    yields a result [r], and the run enters Results once the lookup has
    settled, with the location the lookup gave, if any, and stays in
    Processing as long as the lookup is pending. *)
Lemma handleProcessOCR_shape (env : ProcessEnv) (a : OCRInterface) :
  (forall geo,
      stage (fst (fst (handleProcessOCR (with_geolocation geo env) a))) = Error
      /\ snd (handleProcessOCR (with_geolocation geo env) a) = Returned)
  \/ (exists r,
        forall geo,
          lastResult (fst (fst (handleProcessOCR (with_geolocation geo env) a)))
          = Some r
          /\ match geo with
             | Geo_pending =>
                 stage (fst (fst (handleProcessOCR (with_geolocation geo env) a)))
                 = Processing
                 /\ snd (handleProcessOCR (with_geolocation geo env) a)
                    = Awaiting_location
             | _ =>
                 container
                   (fst (fst (handleProcessOCR (with_geolocation geo env) a)))
                 = ResultsView r (extractNumberSequences (text r))
                     (location_of geo)
                 /\ capturedLocation
                      (fst (fst (handleProcessOCR (with_geolocation geo env) a)))
                    = location_of geo
                 /\ snd (handleProcessOCR (with_geolocation geo env) a)
                    = Returned
             end).
Proof.
  unfold handleProcessOCR.
  destruct (capturedImageData a) as [img|];
    [|left; intros geo; split; reflexivity].
  simpl.
  pose proof (ensure_initialized_stage env
                (set_container (ProcessingView "Initializing OCR..." 0) a)
                eq_refl) as Hstage.
  destruct (ensure_initialized env
              (set_container (ProcessingView "Initializing OCR..." 0) a))
    as [[u|err] [a2 evs3]] eqn:Hinit; simpl in Hstage.
  - destruct (canvas_context2d env) eqn:Hctx; simpl.
    + destruct (recognizeText None (recognize_run env) (ocrEngine a2))
        as [[r|err] oevs] eqn:Hrec.
      * right. exists r. intros geo.
        rewrite ensure_initialized_geolocation, Hinit. simpl.
        rewrite ?Hctx, Hrec. simpl.
        destruct (deliver_fields oevs a2) as (Hs & _).
        destruct geo as [|[lat lon]| |]; simpl; repeat split; auto.
      * left. intros geo.
        rewrite ensure_initialized_geolocation, Hinit. simpl.
        rewrite ?Hctx, Hrec. simpl.
        destruct geo; simpl; split; reflexivity.
    + left. intros geo.
      rewrite ensure_initialized_geolocation, Hinit. simpl.
      rewrite ?Hctx. simpl.
      destruct geo; simpl; split; reflexivity.
  - left. intros geo.
    rewrite ensure_initialized_geolocation, Hinit. simpl.
    destruct geo; simpl; split; reflexivity.
Qed.

Lemma trim_nil : trim [] = [].
Proof. reflexivity. Qed.

(** On a ready engine, text that does not trim to nothing is returned. *)
Lemma recognizeText_success (language : option string)
    (run : external_run RecognizeData) (e : OCREngine) (d : RecognizeData) :
  isReady e = true ->
  settles run = Normal d ->
  trim (data_text d) <> [] ->
  fst (recognizeText language run e)
  = Normal {| text := data_text d; confidence := data_confidence d;
              language := match language with
                          | Some l => l
                          | None => "eng"
                          end |}.
Proof.
  intros Hready Hrun Htext.
  destruct (isReady_fields e Hready) as [w [Hw Hinit]].
  unfold recognizeText. rewrite Hw, Hinit, Hrun.
  destruct (data_text d) as [|c t] eqn:Hd; [contradiction|].
  rewrite <- Hd in *.
  destruct (trim (data_text d)) as [|c' t'] eqn:Ht; [contradiction|].
  rewrite Hd. reflexivity.
Qed.

(** The engine is ready once [ensure_initialized] has returned
    normally, which it does when the engine was ready or the worker
    starts. *)
Lemma ensure_initialized_ready (env : ProcessEnv) (a : OCRInterface) :
  isReady (ocrEngine a) = true
  \/ (exists w, settles (createWorker_run env) = Normal w) ->
  exists a2 evs,
    ensure_initialized env a = (Normal tt, (a2, evs))
    /\ isReady (ocrEngine a2) = true.
Proof.
  intros H. unfold ensure_initialized.
  destruct (isReady (ocrEngine a)) eqn:Hready.
  - exists a, []. auto.
  - destruct H as [H|[w Hw]]; [discriminate|].
    unfold initialize. unfold isReady in Hready. rewrite Hready, Hw.
    cbv zeta. eexists. eexists. split; [reflexivity|].
    match goal with
    | |- context [deliver ?evs ?x] =>
        destruct (deliver_fields evs x) as (_ & _ & He & _)
    end.
    rewrite He. reflexivity.
Qed.

(** A run whose recognition succeeds: the engine is ready or starts, the
    canvas has a context, and the worker returns text that does not trim
    to nothing. *)
Lemma processing_run_recognized (env : ProcessEnv) (a : OCRInterface)
    (img : ImageData) (d : RecognizeData) (geo : Geolocation) :
  capturedImageData a = Some img ->
  isReady (ocrEngine a) = true
  \/ (exists w, settles (createWorker_run env) = Normal w) ->
  canvas_context2d env = true ->
  settles (recognize_run env) = Normal d ->
  trim (data_text d) <> [] ->
  lastResult (fst (fst (processing_run env a geo))) = Some (result_of d)
  /\ match geo with
     | Geo_pending =>
         stage (fst (fst (processing_run env a geo))) = Processing
         /\ snd (processing_run env a geo) = Awaiting_location
     | _ =>
         stage (fst (fst (processing_run env a geo))) = Results
         /\ capturedLocation (fst (fst (processing_run env a geo)))
            = location_of geo
         /\ snd (processing_run env a geo) = Returned
     end.
Proof.
  intros Himg Hengine Hctx Hrun Htext.
  unfold processing_run, handleProcessOCR. rewrite Himg. simpl.
  rewrite ensure_initialized_geolocation.
  pose proof (ensure_initialized_stage env
                (set_container (ProcessingView "Initializing OCR..." 0) a)
                eq_refl) as Hstage.
  destruct (ensure_initialized_ready env
              (set_container (ProcessingView "Initializing OCR..." 0) a)
              Hengine)
    as [a2 [evs3 [Hinit Hready]]].
  rewrite Hinit in *. simpl in Hstage. rewrite Hctx. simpl.
  pose proof (recognizeText_success None (recognize_run env) (ocrEngine a2) d
                Hready Hrun Htext) as Hrec.
  destruct (recognizeText None (recognize_run env) (ocrEngine a2))
    as [r oevs].
  simpl in Hrec. subst r.
  destruct (deliver_fields oevs a2) as (Hs & _).
  destruct geo as [|[lat lon]| |]; simpl; repeat split; auto.
Qed.

(** C6: the best-effort location lookup never changes the stage a
    processing run ends in.  However the lookup settles, the final stage
    is the same.  When recognition succeeds and the lookup fails, or
    geolocation is unsupported, the run enters Results with the location
    absent.  And the run enters Results only once the lookup has settled:
    as long as it is pending, a run whose recognition has succeeded stays
    in Processing, suspended at the lookup. *)
Theorem location_lookup_is_best_effort (env : ProcessEnv) (a : OCRInterface) :
  (forall geo1 geo2,
      geo1 <> Geo_pending -> geo2 <> Geo_pending ->
      stage (fst (fst (processing_run env a geo1)))
      = stage (fst (fst (processing_run env a geo2))))
  /\ (forall img d geo,
         capturedImageData a = Some img ->
         isReady (ocrEngine a) = true
         \/ (exists w, settles (createWorker_run env) = Normal w) ->
         canvas_context2d env = true ->
         settles (recognize_run env) = Normal d ->
         trim (data_text d) <> [] ->
         geo = Geo_error \/ geo = Geo_unsupported ->
         stage (fst (fst (processing_run env a geo))) = Results
         /\ lastResult (fst (fst (processing_run env a geo)))
            = Some (result_of d)
         /\ capturedLocation (fst (fst (processing_run env a geo))) = None
         /\ container (fst (fst (processing_run env a geo)))
            = ResultsView (result_of d)
                (extractNumberSequences (data_text d)) None
         /\ snd (processing_run env a geo) = Returned)
  /\ (forall geo,
         stage (fst (fst (processing_run env a geo))) = Results ->
         geo <> Geo_pending /\ snd (processing_run env a geo) = Returned)
  /\ (forall img d,
         capturedImageData a = Some img ->
         isReady (ocrEngine a) = true
         \/ (exists w, settles (createWorker_run env) = Normal w) ->
         canvas_context2d env = true ->
         settles (recognize_run env) = Normal d ->
         trim (data_text d) <> [] ->
         stage (fst (fst (processing_run env a Geo_pending))) = Processing
         /\ snd (processing_run env a Geo_pending) = Awaiting_location).
Proof.
  split; [|split; [|split]].
  - intros geo1 geo2 H1 H2. unfold processing_run.
    destruct (handleProcessOCR_shape env a) as [Hfail|[r Hok]].
    + destruct (Hfail geo1) as [-> _], (Hfail geo2) as [-> _]. reflexivity.
    + pose proof (Hok geo1) as [_ Hg1]. pose proof (Hok geo2) as [_ Hg2].
      unfold stage.
      destruct geo1; try congruence; destruct geo2; try congruence;
        destruct Hg1 as [-> _], Hg2 as [-> _]; reflexivity.
  - intros img d geo Himg Hengine Hctx Hrun Htext Hgeo.
    destruct (processing_run_recognized env a img d geo
                Himg Hengine Hctx Hrun Htext) as [Hlast Hend].
    assert (Hres : stage (fst (fst (processing_run env a geo))) = Results
                   /\ capturedLocation (fst (fst (processing_run env a geo)))
                      = None
                   /\ snd (processing_run env a geo) = Returned)
      by (destruct Hgeo; subst geo; exact Hend).
    destruct Hres as (Hstage & Hloc & Hret).
    repeat split; try assumption.
    (* the document on display is the results view of this result *)
    unfold processing_run in *.
    destruct (handleProcessOCR_shape env a) as [Hfail|[r Hok]].
    + destruct (Hfail geo) as [Hst _]. congruence.
    + destruct (Hok geo) as [Hlast' Hview].
      assert (r = result_of d) by congruence. subst r.
      destruct Hgeo; subst geo; apply Hview.
  - intros geo Hstage. unfold processing_run in *.
    destruct (handleProcessOCR_shape env a) as [Hfail|[r Hok]].
    + destruct (Hfail geo) as [Hst _]. congruence.
    + destruct (Hok geo) as [_ Hend].
      destruct geo; try (split; [discriminate | apply Hend]).
      destruct Hend as [Hst _]. congruence.
  - intros img d Himg Hengine Hctx Hrun Htext.
    apply (processing_run_recognized env a img d Geo_pending
             Himg Hengine Hctx Hrun Htext).
Qed.

Lemma location_lookup_is_best_effort_witness :
  capturedImageData photo_captured
  = Some {| width := 1280; height := 720; data := [0; 0; 0; 255]%N |}
  /\ stage (fst (fst (processing_run
                        (env_process Geo_unsupported
                           (recognized "order 12 34 5678 thanks"))
                        photo_captured Geo_error)))
     = Results
  /\ capturedLocation
       (fst (fst (processing_run
                    (env_process Geo_unsupported
                       (recognized "order 12 34 5678 thanks"))
                    photo_captured Geo_error)))
     = None
  /\ stage (fst (fst (processing_run
                        (env_process Geo_unsupported
                           (recognized "order 12 34 5678 thanks"))
                        photo_captured Geo_pending)))
     = Processing.
Proof.
  pose (env := env_process Geo_unsupported
                 (recognized "order 12 34 5678 thanks")).
  pose (d := {| data_text := of_string "order 12 34 5678 thanks";
                data_confidence := (87 # 1)%Q |}).
  pose (img := {| width := 1280%N; height := 720%N;
                  data := [0; 0; 0; 255]%N |}).
  assert (Himg : capturedImageData photo_captured = Some img) by reflexivity.
  assert (Hengine :
            isReady (ocrEngine photo_captured) = true
            \/ (exists w, settles (createWorker_run env) = Normal w))
    by (right; exists tesseract; reflexivity).
  assert (Hctx : canvas_context2d env = true) by reflexivity.
  assert (Hrun : settles (recognize_run env) = Normal d) by reflexivity.
  assert (Htext : trim (data_text d) <> []) by (vm_compute; discriminate).
  destruct (location_lookup_is_best_effort env photo_captured)
    as (_ & Hfailed & _ & Hwaits).
  destruct (Hfailed img d Geo_error Himg Hengine Hctx Hrun Htext
              (or_introl eq_refl))
    as (Hstage & _ & Hloc & _).
  destruct (Hwaits img d Himg Hengine Hctx Hrun Htext) as [Hpending _].
  split; [exact Himg|].
  split; [exact Hstage|].
  split; [exact Hloc|].
  exact Hpending.
Defined.


(** ** A complete session *)

(** Idle, camera started, photo captured with the dimensions of the
    preview, results shown; the engine, started on first use, reports
    its phases in order. *)
Example session_stages :
  stage new_OCRInterface = Idle
  /\ stage camera_started = CameraActive
  /\ stage photo_captured = PhotoCaptured
  /\ option_map (fun i => (width i, height i)) (capturedImageData photo_captured)
     = Some (videoWidth preview, videoHeight preview)
  /\ stage results_shown = Results
  /\ capturedLocation results_shown = Some stockholm.
Proof. repeat split. Qed.

Example session_progress :
  map (fun ev => match ev with
                 | Ev_ocr (Ev_progress _ p) => Some (status p, progress p)
                 | _ => None
                 end)
      (filter (fun ev => match ev with
                         | Ev_ocr (Ev_progress _ _) => true
                         | _ => false
                         end)
         (snd (fst (handleProcessOCR
                      (env_process (Geo_position stockholm)
                         (recognized "order 12 34 5678 thanks"))
                      photo_captured))))
  = [Some (loading, 0%Z); Some (initializing, 100%Z);
     Some (recognizing, 0%Z); Some (recognizing, 50%Z);
     Some (completed, 100%Z)].
Proof. reflexivity. Qed.

(* ===================================================================== *)
(** * Further properties of the camera manager *)
(* ===================================================================== *)

Lemma has_videoinput (ds : list MediaDeviceKind) :
  (0 <? List.length
          (filter (fun k => match k with videoinput => true | _ => false end)
                  ds)) = true
  <-> In videoinput ds.
Proof.
  induction ds as [|k ds IH]; simpl.
  - split; [discriminate | intros []].
  - destruct k; simpl.
    + rewrite IH. split; [auto | intros [H|H]; [discriminate | exact H]].
    + rewrite IH. split; [auto | intros [H|H]; [discriminate | exact H]].
    + split; auto.
Qed.

(** X1: the camera is reported available exactly when the platform has
    [getUserMedia] and the enumeration of devices succeeds and lists a
    video input.  Devices are enumerated only when [getUserMedia] is
    there, and a failed enumeration is answered with [false]. *)
Theorem checkCameraAvailability_true_iff
    (has_gum : bool) (devs : completion (list MediaDeviceKind)) :
  (fst (checkCameraAvailability has_gum devs) = true
   <-> has_gum = true /\ exists ds, devs = Normal ds /\ In videoinput ds)
  /\ snd (checkCameraAvailability has_gum devs)
     = if has_gum then [Ev_enumerateDevices] else [].
Proof.
  unfold checkCameraAvailability.
  destruct has_gum; simpl.
  - destruct devs as [ds|err]; simpl; split; try reflexivity.
    + rewrite has_videoinput. split.
      * intros H. split; [reflexivity|]. exists ds. auto.
      * intros [_ [ds' [Heq Hin]]]. injection Heq as <-. exact Hin.
    + split; [discriminate|].
      intros [_ [ds [Heq _]]]. discriminate.
  - split; [|reflexivity].
    split; [discriminate | intros [H _]; discriminate].
Qed.

(** When a capture succeeds (shared by the properties of the capture
    handler below). *)
Lemma capturePhoto_success_iff_aux
    (context2d : bool) (pixels : list N) (cm : CameraManager)
    (img : ImageData) :
  fst (capturePhoto context2d pixels cm) = Normal img
  <-> exists v s,
        videoElement cm = Some v
        /\ stream (state cm) = Some s
        /\ isActive (state cm) = true
        /\ context2d = true
        /\ videoWidth v <> 0%N /\ videoHeight v <> 0%N
        /\ img = {| width := videoWidth v; height := videoHeight v;
                    data := pixels |}.
Proof.
  unfold capturePhoto. split.
  - destruct (videoElement cm) as [v|]; [|discriminate].
    destruct (stream (state cm)) as [s|]; [|discriminate].
    destruct (isActive (state cm)); [|discriminate].
    destruct context2d; [|discriminate]. simpl.
    destruct (N.eqb_spec (videoWidth v) 0); [discriminate|].
    destruct (N.eqb_spec (videoHeight v) 0); [discriminate|].
    simpl. intros H. injection H as <-.
    exists v, s. repeat split; assumption.
  - intros (v & s & -> & -> & -> & -> & Hw & Hh & ->). simpl.
    apply N.eqb_neq in Hw, Hh. rewrite Hw, Hh. reflexivity.
Qed.

(** X2: a photo is captured exactly when a video element is attached,
    the stream is held and active, the canvas yields a 2D context and the
    video has a frame; the image then has the dimensions of the video.
    In every other case the call throws. *)
Theorem capturePhoto_success_iff
    (context2d : bool) (pixels : list N) (cm : CameraManager)
    (img : ImageData) :
  fst (capturePhoto context2d pixels cm) = Normal img
  <-> exists v s,
        videoElement cm = Some v
        /\ stream (state cm) = Some s
        /\ isActive (state cm) = true
        /\ context2d = true
        /\ videoWidth v <> 0%N /\ videoHeight v <> 0%N
        /\ img = {| width := videoWidth v; height := videoHeight v;
                    data := pixels |}.
Proof.
  unfold capturePhoto. split.
  - destruct (videoElement cm) as [v|]; [|discriminate].
    destruct (stream (state cm)) as [s|]; [|discriminate].
    destruct (isActive (state cm)); [|discriminate].
    destruct context2d; [|discriminate]. simpl.
    destruct (N.eqb_spec (videoWidth v) 0); [discriminate|].
    destruct (N.eqb_spec (videoHeight v) 0); [discriminate|].
    simpl. intros H. injection H as <-.
    exists v, s. repeat split; assumption.
  - intros (v & s & -> & -> & -> & -> & Hw & Hh & ->). simpl.
    apply N.eqb_neq in Hw, Hh. rewrite Hw, Hh. reflexivity.
Qed.

(** Once the camera has been stopped, neither a capture nor an
    attachment is possible until access is requested again: the capture
    throws for want of a video element, the attachment for want of a
    stream, and the manager stays stopped. *)
Lemma stopped_camera_refuses
    (cm : CameraManager) (context2d : bool) (pixels : list N)
    (v : HTMLVideoElement) :
  capturePhoto context2d pixels (snd (fst (stopCamera cm)))
  = (Throw (new_Error "No video element attached"), [])
  /\ attachToVideoElement v (snd (fst (stopCamera cm)))
     = (Throw (new_Error "No active camera stream"),
        snd (fst (stopCamera cm)), []).
Proof.
  rewrite stopCamera_state. split; reflexivity.
Qed.

(** X3: access, attachment, capture, stop.  From any manager, once
    access is granted, the stream attached to a video that has a frame,
    and a canvas context obtained, the capture returns an image of the
    dimensions of the video; the stop that follows stops every track of
    the granted stream, then detaches the video. *)
Theorem access_attach_capture_stop
    (cm : CameraManager) (config : CameraConfig) (s : MediaStream)
    (v : HTMLVideoElement) (pixels : list N) :
  videoWidth v <> 0%N -> videoHeight v <> 0%N ->
  let cm1 := snd (fst (requestCameraAccess true config (Normal s) cm)) in
  let cm2 := snd (fst (attachToVideoElement v cm1)) in
  fst (fst (attachToVideoElement v cm1)) = Normal tt
  /\ fst (capturePhoto true pixels cm2)
     = Normal {| width := videoWidth v; height := videoHeight v;
                 data := pixels |}
  /\ snd (stopCamera cm2)
     = map Ev_track_stop (getTracks s) ++ [Ev_set_srcObject v None].
Proof.
  intros Hw Hh.
  apply N.eqb_neq in Hw, Hh.
  unfold requestCameraAccess, requestCameraAccess_call. simpl.
  unfold stream_acquired, attachToVideoElement, capturePhoto, stopCamera.
  destruct (getVideoTracks s); simpl; rewrite Hw, Hh; repeat split.
Qed.

Lemma access_attach_capture_stop_witness :
  videoWidth preview <> 0%N
  /\ videoHeight preview <> 0%N
  /\ fst (capturePhoto true [1; 2; 3; 4]%N
            (snd (fst (attachToVideoElement preview
                         (snd (fst (requestCameraAccess true back_config
                                      (Normal back_stream)
                                      new_CameraManager)))))))
     = Normal {| width := 1280; height := 720; data := [1; 2; 3; 4]%N |}.
Proof.
  assert (Hw : videoWidth preview <> 0%N) by discriminate.
  assert (Hh : videoHeight preview <> 0%N) by discriminate.
  split; [exact Hw|]. split; [exact Hh|].
  apply (access_attach_capture_stop new_CameraManager back_config back_stream
           preview [1; 2; 3; 4]%N Hw Hh).
Defined.

(** X4: in every state the manager can reach through its methods, it is
    active exactly when it holds a stream, and it has a video element or
    a device id only while it is active. *)
Theorem reachable_active_iff_stream (cm : CameraManager) :
  reachable cm ->
  (isActive (state cm) = true <-> stream (state cm) <> None)
  /\ (videoElement cm <> None -> isActive (state cm) = true)
  /\ (deviceId (state cm) <> None -> isActive (state cm) = true).
Proof.
  intros Hreach.
  destruct (reachable_consistent cm Hreach) as [Hiff Hnone].
  destruct (isActive (state cm)) eqn:Hact.
  - repeat split; auto.
    intros _ Hs. apply Hiff in Hs. discriminate.
  - destruct (Hnone (proj1 Hiff eq_refl)) as [Hdev Hvid].
    rewrite (proj1 Hiff eq_refl), Hdev, Hvid.
    repeat split; intros; congruence.
Qed.

Lemma reachable_active_iff_stream_witness :
  reachable (snd (fst (requestCameraAccess true back_config
                         (Normal back_stream) new_CameraManager)))
  /\ isActive (state (snd (fst (requestCameraAccess true back_config
                                  (Normal back_stream) new_CameraManager))))
     = true.
Proof.
  assert (Hreach :
            reachable (snd (fst (requestCameraAccess true back_config
                                   (Normal back_stream) new_CameraManager))))
    by (apply reach_request; apply reach_new).
  split; [exact Hreach|].
  apply (proj2 (proj2 (reachable_active_iff_stream _ Hreach))).
  discriminate.
Defined.

(** X5: when access is granted the manager holds the granted stream and
    is active; its device id is that of the first video track of the
    stream, an empty or missing id counting as none, and is left as it
    was when the stream has no video track.  The video element is not
    touched. *)
Theorem requestCameraAccess_granted
    (config : CameraConfig) (s : MediaStream) (cm : CameraManager) :
  let r := requestCameraAccess true config (Normal s) cm in
  fst (fst r) = Normal s
  /\ snd r = [Ev_getUserMedia config]
  /\ stream (state (snd (fst r))) = Some s
  /\ isActive (state (snd (fst r))) = true
  /\ videoElement (snd (fst r)) = videoElement cm
  /\ deviceId (state (snd (fst r)))
     = match find is_video (getTracks s) with
       | Some t =>
           match settings_deviceId t with
           | Some "" => None
           | id => id
           end
       | None => deviceId (state cm)
       end.
Proof.
  unfold requestCameraAccess, requestCameraAccess_call,
    requestCameraAccess_resume, stream_acquired, getVideoTracks.
  simpl.
  assert (Hfind : forall ts,
             match filter is_video ts with
             | t :: _ => Some t
             | [] => None
             end = find is_video ts).
  { induction ts as [|t ts IH]; simpl; [reflexivity|].
    destruct (is_video t); [reflexivity | exact IH]. }
  rewrite <- Hfind.
  destruct (filter is_video (getTracks s)) as [|t ts]; simpl; repeat split.
  unfold or_null. destruct (settings_deviceId t) as [[|c id]|]; reflexivity.
Qed.

(* ===================================================================== *)
(** * Further properties of the recognition engine *)
(* ===================================================================== *)

Lemma initialize_ready (cb : option ProgressCallback)
    (run : external_run Worker) (e : OCREngine) :
  fst (fst (initialize cb run e)) = Normal tt ->
  isReady (snd (fst (initialize cb run e))) = true.
Proof.
  unfold initialize, isReady.
  destruct (isInitialized e
            && match worker e with Some _ => true | None => false end)
    eqn:Hready.
  - simpl. intros _. exact Hready.
  - destruct (settles run) as [w|err]; simpl; [reflexivity | discriminate].
Qed.

(** X6: initialisation is idempotent.  Once a call of [initialize] has
    returned normally the engine is ready, and any further call, with
    whatever callback and whatever the worker factory would do, returns
    normally without starting a worker, reporting progress or changing
    the engine: in particular the callback registered first stays. *)
Theorem initialize_idempotent
    (cb cb2 : option ProgressCallback) (run run2 : external_run Worker)
    (e : OCREngine) :
  fst (fst (initialize cb run e)) = Normal tt ->
  isReady (snd (fst (initialize cb run e))) = true
  /\ initialize cb2 run2 (snd (fst (initialize cb run e)))
     = (Normal tt, snd (fst (initialize cb run e)), []).
Proof.
  intros Hok.
  pose proof (initialize_ready cb run e Hok) as Hready.
  split; [exact Hready|].
  unfold isReady in Hready.
  unfold initialize at 1. rewrite Hready. reflexivity.
Qed.

Lemma initialize_idempotent_witness :
  fst (fst (initialize (Some updateProgress_callback)
              {| logged := []; settles := Normal tesseract |}
              new_OCREngine))
  = Normal tt
  /\ initialize None
       {| logged := []; settles := Throw Thrown_Other |}
       (snd (fst (initialize (Some updateProgress_callback)
                    {| logged := []; settles := Normal tesseract |}
                    new_OCREngine)))
     = (Normal tt, ready_engine, []).
Proof.
  split; [reflexivity|].
  apply (proj2 (initialize_idempotent
                  (Some updateProgress_callback) None
                  {| logged := []; settles := Normal tesseract |}
                  {| logged := []; settles := Throw Thrown_Other |}
                  new_OCREngine eq_refl)).
Defined.



(** An engine that is not ready refuses to recognise: the call
    throws a plain error, outside the error taxonomy, without reporting
    progress and without calling the worker. *)
Lemma recognizeText_requires_ready
    (language : option string) (run : external_run RecognizeData)
    (e : OCREngine) :
  isReady e = false ->
  recognizeText language run e
  = (Throw (new_Error "OCR engine not initialized. Call initialize() first."),
     [])
  /\ isAppError
       (new_Error "OCR engine not initialized. Call initialize() first.")
     = false.
Proof.
  unfold isReady, recognizeText. intros Hnot.
  split; [|reflexivity].
  destruct (worker e) as [w|], (isInitialized e);
    try reflexivity; discriminate.
Qed.

Lemma recognizeText_requires_ready_witness :
  isReady new_OCREngine = false
  /\ recognizeText None (recognized "12345678") new_OCREngine
     = (Throw (new_Error "OCR engine not initialized. Call initialize() first."),
        []).
Proof.
  split; [reflexivity|].
  apply (proj1 (recognizeText_requires_ready None (recognized "12345678")
                  new_OCREngine eq_refl)).
Defined.

(** X8: termination releases the worker and is idempotent.  When the
    worker's own termination succeeds, the engine is back in its initial
    state, whatever it was: it is not ready, recognition is refused, and
    a second termination does nothing, not even call a worker.  When the
    worker's termination fails, the fault is passed on and the engine is
    left as it was. *)
Theorem terminate_releases (e : OCREngine) :
  (fst (fst (terminate (Normal tt) e)) = Normal tt
   /\ isReady (snd (fst (terminate (Normal tt) e))) = false
   /\ (forall w, worker e = Some w ->
                 terminate (Normal tt) e
                 = (Normal tt, new_OCREngine, [Ev_terminate w]))
   /\ (forall outcome,
          terminate outcome (snd (fst (terminate (Normal tt) e)))
          = (Normal tt, snd (fst (terminate (Normal tt) e)), []))
   /\ (forall language run,
          fst (recognizeText language run (snd (fst (terminate (Normal tt) e))))
          = Throw (new_Error
                     "OCR engine not initialized. Call initialize() first.")))
  /\ (forall w fault,
         worker e = Some w ->
         terminate (Throw fault) e = (Throw fault, e, [Ev_terminate w])).
Proof.
  unfold terminate, isReady, recognizeText.
  destruct (worker e) as [w|] eqn:Hw; simpl.
  - repeat split.
    + intros w' Heq. injection Heq as <-. reflexivity.
    + intros w' fault Heq. injection Heq as <-. reflexivity.
  - rewrite Hw. repeat split; try discriminate.
    apply andb_false_r.
Qed.

Lemma terminate_releases_witness :
  worker ready_engine = Some tesseract
  /\ terminate (Normal tt) ready_engine
     = (Normal tt, new_OCREngine, [Ev_terminate tesseract]).
Proof.
  split; [reflexivity|].
  destruct (terminate_releases ready_engine) as [(_ & _ & Hw & _) _].
  apply (Hw tesseract). reflexivity.
Defined.

(* ===================================================================== *)
(** * Further properties of the error messages *)
(* ===================================================================== *)

Lemma key_of_name_AppError_name (k : AppError) :
  key_of_name (AppError_name k) = Some k.
Proof. destruct k as [[]|[]]; reflexivity. Qed.

Lemma key_of_name_Some (n : string) (k : AppError) :
  key_of_name n = Some k -> n = AppError_name k.
Proof.
  unfold key_of_name. intros H. apply find_some in H.
  destruct H as [_ H]. apply String.eqb_eq in H. auto.
Qed.

Lemma is_inherited_In (n : string) :
  is_inherited n = true <-> In n Object_prototype_properties.
Proof.
  unfold is_inherited. rewrite existsb_exists. split.
  - intros [x [Hin Heq]]. apply String.eqb_eq in Heq. subst x. exact Hin.
  - intros Hin. exists n. split; [exact Hin | apply String.eqb_refl].
Qed.

(** No kind is named like a member of [Object.prototype]. *)
Lemma inherited_not_own (n : string) :
  In n Object_prototype_properties -> key_of_name n = None.
Proof.
  unfold Object_prototype_properties. simpl.
  intros H.
  repeat (destruct H as [<-|H]; [reflexivity|]).
  destruct H.
Qed.

Lemma has_property_iff (n : string) :
  has_property n = true
  <-> (exists k, n = AppError_name k) \/ In n Object_prototype_properties.
Proof.
  unfold has_property. split.
  - destruct (key_of_name n) as [k|] eqn:Hk.
    + intros _. left. exists k. apply key_of_name_Some. exact Hk.
    + intros H. right. apply is_inherited_In. exact H.
  - intros [[k ->]|Hin].
    + rewrite key_of_name_AppError_name. reflexivity.
    + rewrite (inherited_not_own n Hin). apply is_inherited_In. exact Hin.
Qed.

Lemma get_property_absent (n : string) :
  has_property n = false -> get_property n = None.
Proof.
  unfold has_property, get_property.
  destruct (key_of_name n); [discriminate|].
  intros ->. reflexivity.
Qed.

(** X10: the lookup of error messages.  The table is keyed by the names
    of the eight kinds, which are pairwise distinct.  A thrown [Error]
    that bears the name of a kind, or a thrown string that is such a
    name, is an application error, and its message is the entry of that
    kind.  The table being an object, the names of the members of
    [Object.prototype] count as well: an [Error], or a string, is an
    application error exactly when its name, or the string, is the name
    of a kind or of such a member, and for such a member what
    [getErrorMessage] returns is the member, which is no message.  For
    an [Error] or a string that is not an application error, the message
    is the generic one.  A value that is neither a string nor an [Error]
    is never an application error; [getErrorMessage] reads its name all
    the same, so that an object that is named like a kind gets the entry
    of the kind. *)
Theorem error_message_lookup :
  (forall k m,
      isAppError (Thrown_Error (AppError_name k) m) = true
      /\ getErrorMessage (Thrown_Error (AppError_name k) m) = ERROR_MESSAGES k
      /\ isAppError (Thrown_String (AppError_name k)) = true
      /\ getErrorMessage (Thrown_String (AppError_name k)) = ERROR_MESSAGES k)
  /\ (forall k1 k2, AppError_name k1 = AppError_name k2 -> k1 = k2)
  /\ (forall n m,
         isAppError (Thrown_String n) = isAppError (Thrown_Error n m)
         /\ (isAppError (Thrown_Error n m) = true
             <-> (exists k, n = AppError_name k)
                 \/ In n Object_prototype_properties))
  /\ (forall n m,
         In n Object_prototype_properties ->
         getErrorMessage (Thrown_Error n m) = Inherited n
         /\ getErrorMessage (Thrown_String n) = Inherited n)
  /\ (forall n m,
         isAppError (Thrown_Error n m) = false ->
         getErrorMessage (Thrown_Error n m)
         = "An unexpected error occurred. Please try again."
         /\ getErrorMessage (Thrown_String n)
            = "An unexpected error occurred. Please try again.")
  /\ (forall n,
         isAppError (Thrown_Object n) = false
         /\ getErrorMessage (Thrown_Object n)
            = getErrorMessage (Thrown_String n))
  /\ (forall k,
         getErrorMessage (Thrown_Object (AppError_name k)) = ERROR_MESSAGES k)
  /\ isAppError Thrown_Other = false
  /\ getErrorMessage Thrown_Other
     = "An unexpected error occurred. Please try again.".
Proof.
  split; [|split; [|split; [|split; [|split; [|split; [|split]]]]]].
  - intros k m. unfold isAppError, getErrorMessage, has_property, get_property.
    simpl. rewrite key_of_name_AppError_name. auto.
  - intros k1 k2 H.
    pose proof (key_of_name_AppError_name k1) as H1.
    rewrite H, key_of_name_AppError_name in H1.
    congruence.
  - intros n m. split; [reflexivity|]. apply has_property_iff.
  - intros n m Hin.
    unfold getErrorMessage, get_property. simpl.
    rewrite (inherited_not_own n Hin).
    rewrite (proj2 (is_inherited_In n) Hin). auto.
  - intros n m H. unfold getErrorMessage. simpl in *.
    rewrite (get_property_absent n H). auto.
  - intros n. split; reflexivity.
  - intros k. unfold getErrorMessage, get_property. simpl.
    rewrite key_of_name_AppError_name. reflexivity.
  - split; reflexivity.
Qed.

Lemma error_message_lookup_witness :
  isAppError (Thrown_Error "toString" "not a kind") = true
  /\ getErrorMessage (Thrown_Error "toString" "not a kind")
     = Inherited "toString"
  /\ isAppError (Thrown_Object "NO_CAMERA") = false
  /\ getErrorMessage (Thrown_Object "NO_CAMERA")
     = "No camera detected. Please connect a camera and try again.".
Proof.
  destruct error_message_lookup
    as (_ & _ & Hiff & Hinherited & _ & Hobject & Hnamed & _).
  split; [|split; [|split]].
  - apply (proj2 (Hiff "toString" "not a kind")). right. simpl. tauto.
  - apply Hinherited. simpl. tauto.
  - apply (proj1 (Hobject "NO_CAMERA")).
  - apply (Hnamed (Camera_error NO_CAMERA)).
Defined.

Lemma created_camera_error_message (c : CameraError) :
  isAppError (Camera.createError c) = true
  /\ getErrorMessage (Camera.createError c) = ERROR_MESSAGES (Camera_error c).
Proof. destruct c; split; reflexivity. Qed.

Lemma created_OCR_error_message (o : OCRError) :
  isAppError (OCR.createError o) = true
  /\ getErrorMessage (OCR.createError o) = ERROR_MESSAGES (OCR_error o).
Proof. destruct o; split; reflexivity. Qed.

(** X11: the two layers throw what the workflow can show.  Every error
    that the camera manager or the engine builds with its [createError]
    is an application error, and its message is the entry of its kind,
    which is never the generic message. *)
Theorem created_errors_have_messages :
  (forall c,
      isAppError (Camera.createError c) = true
      /\ getErrorMessage (Camera.createError c)
         = ERROR_MESSAGES (Camera_error c))
  /\ (forall o,
         isAppError (OCR.createError o) = true
         /\ getErrorMessage (OCR.createError o)
            = ERROR_MESSAGES (OCR_error o))
  /\ (forall k,
         ERROR_MESSAGES k
         <> "An unexpected error occurred. Please try again.")
  /\ (forall k1 k2, ERROR_MESSAGES k1 = ERROR_MESSAGES k2 -> k1 = k2).
Proof.
  split; [|split; [|split]].
  - apply created_camera_error_message.
  - apply created_OCR_error_message.
  - intros [[]|[]]; discriminate.
  - intros [[]|[]] [[]|[]] H; try reflexivity; discriminate H.
Qed.

(* ===================================================================== *)
(** * Further properties of the workflow *)
(* ===================================================================== *)

(** ** Starting the camera, run to completion *)

Lemma available_has_getUserMedia (env : StartEnv) :
  fst (checkCameraAvailability (has_getUserMedia env) (devices env)) = true ->
  has_getUserMedia env = true.
Proof.
  unfold checkCameraAvailability.
  destruct (has_getUserMedia env); [reflexivity | discriminate].
Qed.

(** X12: when no camera is available, the start ends in the error view
    with the no-camera message without a single stream request; the
    camera manager and the session data are left as they were, and the
    lock is released. *)
Theorem handleStartCamera_unavailable (env : StartEnv) (a : OCRInterface) :
  isStartingCamera a = false ->
  fst (checkCameraAvailability (has_getUserMedia env) (devices env)) = false ->
  container (fst (fst (handleStartCamera env a)))
  = ErrorView
      "No camera detected. Please ensure your device has a camera and try again."
  /\ stream_requests (snd (fst (handleStartCamera env a))) = 0
  /\ cameraManager (fst (fst (handleStartCamera env a))) = cameraManager a
  /\ capturedImageData (fst (fst (handleStartCamera env a)))
     = capturedImageData a
  /\ lastResult (fst (fst (handleStartCamera env a))) = lastResult a
  /\ isStartingCamera (fst (fst (handleStartCamera env a))) = false
  /\ snd (handleStartCamera env a) = None.
Proof.
  intros Hfree Hno.
  unfold handleStartCamera. simpl.
  unfold handleStartCamera_call. rewrite Hfree. simpl.
  rewrite Hno. simpl.
  repeat split.
  rewrite stream_requests_app. simpl.
  unfold checkCameraAvailability.
  destruct (has_getUserMedia env); simpl; [|reflexivity].
  destruct (devices env); reflexivity.
Qed.

Lemma handleStartCamera_unavailable_witness :
  isStartingCamera new_OCRInterface = false
  /\ fst (checkCameraAvailability (has_getUserMedia env_no_camera)
            (devices env_no_camera)) = false
  /\ stage (fst (fst (handleStartCamera env_no_camera new_OCRInterface)))
     = Error
  /\ stream_requests (snd (fst (handleStartCamera env_no_camera
                                  new_OCRInterface))) = 0.
Proof.
  assert (Hfree : isStartingCamera new_OCRInterface = false) by reflexivity.
  assert (Hno : fst (checkCameraAvailability (has_getUserMedia env_no_camera)
                       (devices env_no_camera)) = false) by reflexivity.
  split; [exact Hfree|]. split; [exact Hno|].
  destruct (handleStartCamera_unavailable env_no_camera new_OCRInterface
              Hfree Hno) as (Hview & Hreq & _).
  split; [|exact Hreq].
  unfold stage. rewrite Hview. reflexivity.
Defined.

(** The start when access is granted to the stream [s] at the first or at
    the second request. *)
Lemma handleStartCamera_granted_state (env : StartEnv) (a : OCRInterface)
    (s : MediaStream) :
  isStartingCamera a = false ->
  fst (checkCameraAvailability (has_getUserMedia env) (devices env)) = true ->
  back_camera env = Normal s
  \/ (exists fault, back_camera env = Throw fault)
     /\ front_camera env = Normal s ->
  fst (fst (handleStartCamera env a))
  = set_isStartingCamera false
      (set_cameraManager
         {| state := state (stream_acquired s (cameraManager a));
            videoElement := Some (video_preview env) |}
         (set_container (CameraView (video_preview env))
            (set_isStartingCamera true a)))
  /\ snd (handleStartCamera env a) = None.
Proof.
  intros Hfree Havail Hgrant.
  pose proof (available_has_getUserMedia env Havail) as Hgum.
  unfold handleStartCamera. simpl.
  unfold handleStartCamera_call. rewrite Hfree. simpl.
  rewrite Havail. simpl.
  unfold access_settles, access_call, requestCameraAccess_call.
  rewrite Hgum. simpl.
  destruct Hgrant as [Hback|[[fault Hback] Hfront]]; rewrite Hback; simpl.
  - unfold handleStartCamera_attach, attachToVideoElement, stream_acquired.
    simpl. destruct (getVideoTracks s); simpl; split; reflexivity.
  - rewrite ?Hgum, Hfront. simpl.
    unfold access_settles, requestCameraAccess_call.
    rewrite ?Hgum. simpl.
    unfold handleStartCamera_attach, attachToVideoElement, stream_acquired.
    simpl. destruct (getVideoTracks s); simpl; split; reflexivity.
Qed.

(** X13: when a camera is available and access is granted, at the first
    request or at the retry with the front camera, the start ends in the
    camera view with the manager active, holding the granted stream and
    attached to the preview; the lock is released and the session data
    are left as they were. *)
Theorem handleStartCamera_granted (env : StartEnv) (a : OCRInterface)
    (s : MediaStream) :
  isStartingCamera a = false ->
  fst (checkCameraAvailability (has_getUserMedia env) (devices env)) = true ->
  back_camera env = Normal s
  \/ (exists fault, back_camera env = Throw fault)
     /\ front_camera env = Normal s ->
  stage (fst (fst (handleStartCamera env a))) = CameraActive
  /\ container (fst (fst (handleStartCamera env a)))
     = CameraView (video_preview env)
  /\ stream (state (cameraManager (fst (fst (handleStartCamera env a)))))
     = Some s
  /\ isActive (state (cameraManager (fst (fst (handleStartCamera env a)))))
     = true
  /\ videoElement (cameraManager (fst (fst (handleStartCamera env a))))
     = Some (video_preview env)
  /\ isStartingCamera (fst (fst (handleStartCamera env a))) = false
  /\ capturedImageData (fst (fst (handleStartCamera env a)))
     = capturedImageData a
  /\ lastResult (fst (fst (handleStartCamera env a))) = lastResult a.
Proof.
  intros Hfree Havail Hgrant.
  destruct (handleStartCamera_granted_state env a s Hfree Havail Hgrant)
    as [-> _].
  unfold stream_acquired.
  destruct (getVideoTracks s); simpl; repeat split.
Qed.

Lemma handleStartCamera_granted_witness :
  isStartingCamera new_OCRInterface = false
  /\ stage (fst (fst (handleStartCamera env_front_only new_OCRInterface)))
     = CameraActive
  /\ stream (state (cameraManager
                      (fst (fst (handleStartCamera env_front_only
                                   new_OCRInterface)))))
     = Some front_stream.
Proof.
  assert (Hfree : isStartingCamera new_OCRInterface = false) by reflexivity.
  split; [exact Hfree|].
  destruct (handleStartCamera_granted env_front_only new_OCRInterface
              front_stream Hfree eq_refl
              (or_intror (conj (ex_intro _ _ eq_refl) eq_refl)))
    as (Hstage & _ & Hstream & _).
  split; [exact Hstage | exact Hstream].
Defined.

(** X14: when a camera is available and both requests are rejected, the
    start ends in the error view with the message of the kind of the
    second rejection, the first being discarded; two stream requests
    were made, the camera manager is stopped and the lock is released. *)
Theorem handleStartCamera_both_rejected (env : StartEnv) (a : OCRInterface)
    (fault1 fault2 : thrown) :
  isStartingCamera a = false ->
  fst (checkCameraAvailability (has_getUserMedia env) (devices env)) = true ->
  back_camera env = Throw fault1 ->
  front_camera env = Throw fault2 ->
  container (fst (fst (handleStartCamera env a)))
  = ErrorView (ERROR_MESSAGES (Camera_error (handleStreamError fault2)))
  /\ stream_requests (snd (fst (handleStartCamera env a))) = 2
  /\ cameraManager (fst (fst (handleStartCamera env a)))
     = {| state := {| stream := None; isActive := false; deviceId := None |};
          videoElement := None |}
  /\ isStartingCamera (fst (fst (handleStartCamera env a))) = false
  /\ snd (handleStartCamera env a) = None.
Proof.
  intros Hfree Havail Hback Hfront.
  pose proof (available_has_getUserMedia env Havail) as Hgum.
  unfold handleStartCamera. simpl.
  unfold handleStartCamera_call. rewrite Hfree. simpl.
  rewrite Havail. simpl.
  unfold access_settles, access_call, requestCameraAccess_call.
  rewrite Hgum. simpl. rewrite Hback. simpl.
  rewrite ?Hgum. simpl. rewrite Hfront. simpl.
  unfold access_settles, requestCameraAccess_call.
  rewrite ?Hgum. simpl.
  unfold handleStartCamera_catch, do_stopCamera.
  pose proof (stopCamera_state (cameraManager a)) as Hstate.
  pose proof (stopCamera_requests (cameraManager a)) as Hreq.
  unfold checkCameraAvailability.
  destruct (handleStreamError fault2); simpl;
    destruct (stopCamera (cameraManager a)) as [[r cm] evs];
    simpl in *; subst cm;
    repeat split;
    rewrite !stream_requests_app; simpl;
    change (Ev_render ?v :: map Ev_camera evs)
      with ([Ev_render v] ++ map Ev_camera evs);
    rewrite stream_requests_app, Hreq;
    destruct (devices env); reflexivity.
Qed.

Lemma handleStartCamera_both_rejected_witness :
  isStartingCamera new_OCRInterface = false
  /\ container (fst (fst (handleStartCamera env_no_camera_listed
                            new_OCRInterface)))
     = ErrorView (ERROR_MESSAGES (Camera_error PERMISSION_DENIED))
  /\ stream_requests (snd (fst (handleStartCamera env_no_camera_listed
                                  new_OCRInterface)))
     = 2.
Proof.
  assert (Hfree : isStartingCamera new_OCRInterface = false) by reflexivity.
  split; [exact Hfree|].
  destruct (handleStartCamera_both_rejected env_no_camera_listed
              new_OCRInterface
              (Thrown_Error "NotFoundError" "no back camera")
              (Thrown_Error "NotAllowedError" "denied")
              Hfree eq_refl eq_refl eq_refl)
    as (Hview & Hreq & _).
  split; [exact Hview | exact Hreq].
Defined.

Lemma handleStartCamera_catch_flag (err : thrown) (a : OCRInterface) :
  isStartingCamera (fst (fst (handleStartCamera_catch err a))) = false.
Proof.
  unfold handleStartCamera_catch.
  destruct (renderError _ a) as [a1 evs1].
  destruct (do_stopCamera a1) as [r [a2 evs2]].
  reflexivity.
Qed.

Lemma handleStartCamera_attach_flag (v : HTMLVideoElement) (a : OCRInterface) :
  isStartingCamera (fst (fst (handleStartCamera_attach v a))) = false.
Proof.
  unfold handleStartCamera_attach.
  destruct (attachToVideoElement v (cameraManager a)) as [[[u|err] cm] evs].
  - reflexivity.
  - pose proof (handleStartCamera_catch_flag err (set_cameraManager cm a)) as H.
    destruct (handleStartCamera_catch err (set_cameraManager cm a))
      as [[a1 evs1] pc].
    exact H.
Qed.

(** A step that ends the invocation goes through the [finally] clause. *)
Lemma handleStartCamera_resume_unlocks (env : StartEnv) (pc : StartPC)
    (a : OCRInterface) :
  snd (handleStartCamera_resume env pc a) = None ->
  isStartingCamera (fst (fst (handleStartCamera_resume env pc a))) = false.
Proof.
  destruct pc as [| |v|v]; simpl.
  - destruct (negb _); simpl; [reflexivity | discriminate].
  - destruct (container a); simpl;
      try (intros _; apply handleStartCamera_catch_flag).
    discriminate.
  - destruct (access_settles env back_config (back_camera env) a)
      as [[s|err] a1].
    + intros _. apply handleStartCamera_attach_flag.
    + discriminate.
  - destruct (access_settles env front_config (front_camera env) a)
      as [[s|err] a1]; intros _.
    + apply handleStartCamera_attach_flag.
    + apply handleStartCamera_catch_flag.
Qed.

(** X15: the lock is held exactly while the call is in flight.  A call
    that finds the lock free holds it at every [await] and has released
    it when it returns, on every path, normal or not; and it does
    return, after at most four awaits. *)
Theorem handleStartCamera_lock (env : StartEnv) (a : OCRInterface) (n : nat) :
  isStartingCamera a = false ->
  (snd (handleStartCamera_steps env n a) <> None ->
   isStartingCamera (fst (fst (handleStartCamera_steps env n a))) = true)
  /\ (snd (handleStartCamera_steps env n a) = None ->
      isStartingCamera (fst (fst (handleStartCamera_steps env n a))) = false)
  /\ snd (handleStartCamera env a) = None
  /\ isStartingCamera (fst (fst (handleStartCamera env a))) = false.
Proof.
  intros Hfree.
  assert (Hdone : forall k,
             snd (handleStartCamera_steps env k a) = None ->
             isStartingCamera (fst (fst (handleStartCamera_steps env k a)))
             = false).
  { induction k as [|k IH]; simpl.
    - unfold handleStartCamera_call. rewrite Hfree. discriminate.
    - destruct (handleStartCamera_steps env k a) as [[a1 evs1] [pc|]];
        simpl in *; [|exact IH].
      pose proof (handleStartCamera_resume_unlocks env pc a1) as H.
      destruct (handleStartCamera_resume env pc a1) as [[a2 evs2] pc2].
      exact H. }
  split; [apply handleStartCamera_steps_flag; exact Hfree|].
  split; [apply Hdone|].
  split; [apply handleStartCamera_returns|].
  apply Hdone. apply handleStartCamera_returns.
Qed.

Lemma handleStartCamera_lock_witness :
  isStartingCamera new_OCRInterface = false
  /\ isStartingCamera
       (fst (fst (handleStartCamera_steps env_back_ok 2 new_OCRInterface)))
     = true
  /\ isStartingCamera (fst (fst (handleStartCamera env_back_ok new_OCRInterface)))
     = false.
Proof.
  assert (Hfree : isStartingCamera new_OCRInterface = false) by reflexivity.
  split; [exact Hfree|].
  destruct (handleStartCamera_lock env_back_ok new_OCRInterface 2 Hfree)
    as (Hheld & _ & _ & Hreleased).
  split; [apply Hheld; discriminate | exact Hreleased].
Defined.

(** ** Cancel and capture *)

(** X16: cancelling always releases the camera.  [handleCancel] returns
    normally from any state.  What it does, in this order: it stops
    every track of the stream that the manager holds, if it holds one;
    it detaches the video element that the manager holds, if it holds
    one; it puts the idle view on display; and it does nothing else.
    The manager is left stopped, and nothing else of the workflow is
    touched, the lock of a start in flight included. *)
Theorem handleCancel_releases_camera (a : OCRInterface) :
  fst (handleCancel a) = Normal tt
  /\ snd (snd (handleCancel a))
     = map (fun t => Ev_camera (Ev_track_stop t))
         match stream (state (cameraManager a)) with
         | Some s => getTracks s
         | None => []
         end
       ++ match videoElement (cameraManager a) with
          | Some v => [Ev_camera (Ev_set_srcObject v None)]
          | None => []
          end
       ++ [Ev_render IdleView]
  /\ stage (fst (snd (handleCancel a))) = Idle
  /\ cameraManager (fst (snd (handleCancel a)))
     = {| state := {| stream := None; isActive := false; deviceId := None |};
          videoElement := None |}
  /\ capturedImageData (fst (snd (handleCancel a))) = capturedImageData a
  /\ lastResult (fst (snd (handleCancel a))) = lastResult a
  /\ extractedNumbers (fst (snd (handleCancel a))) = extractedNumbers a
  /\ capturedLocation (fst (snd (handleCancel a))) = capturedLocation a
  /\ ocrEngine (fst (snd (handleCancel a))) = ocrEngine a
  /\ isStartingCamera (fst (snd (handleCancel a))) = isStartingCamera a.
Proof.
  unfold handleCancel, do_stopCamera.
  pose proof (stopCamera_returns (cameraManager a)) as Hret.
  pose proof (stopCamera_state (cameraManager a)) as Hstate.
  pose proof (stopCamera_events (cameraManager a)) as Hevs.
  destruct (stopCamera (cameraManager a)) as [[r cm] evs].
  simpl in *. subst r cm evs. simpl.
  split; [reflexivity|]. split; [|repeat split].
  destruct (stream (state (cameraManager a))) as [s|],
           (videoElement (cameraManager a)) as [v|];
    rewrite map_app, <- app_assoc, ?map_map; reflexivity.
Qed.

(** X17: a capture that succeeds releases the camera eagerly.  The frame
    is drawn from the attached video, then every track of the held
    stream is stopped and the video detached, and only then is the
    captured photo put on display; the frame kept has the dimensions of
    the video, and the manager is left stopped. *)
Theorem handleCapture_eager_release
    (context2d : bool) (pixels : list N) (a : OCRInterface)
    (img : ImageData) :
  fst (capturePhoto context2d pixels (cameraManager a)) = Normal img ->
  exists v s,
    videoElement (cameraManager a) = Some v
    /\ stream (state (cameraManager a)) = Some s
    /\ img = {| width := videoWidth v; height := videoHeight v;
                data := pixels |}
    /\ snd (handleCapture context2d pixels a)
       = Ev_camera (Ev_drawImage v)
         :: map (fun t => Ev_camera (Ev_track_stop t)) (getTracks s)
         ++ [Ev_camera (Ev_set_srcObject v None);
             Ev_render (CapturedView img)]
    /\ fst (handleCapture context2d pixels a)
       = set_container (CapturedView img)
           (set_cameraManager
              {| state := {| stream := None; isActive := false;
                             deviceId := None |};
                 videoElement := None |}
              (set_capturedImageData (Some img) a)).
Proof.
  intros Hcap.
  pose proof (proj1 (capturePhoto_success_iff_aux context2d pixels
                       (cameraManager a) img) Hcap)
    as (v & s & Hv & Hs & Hact & Hctx & Hw & Hh & Himg).
  exists v, s. repeat split; try assumption.
  - unfold handleCapture, do_stopCamera, capturePhoto, stopCamera.
    rewrite Hv, Hs, Hact, Hctx. simpl.
    apply N.eqb_neq in Hw, Hh. rewrite Hw, Hh. simpl.
    rewrite Hs, Hv. simpl.
    rewrite map_app, map_map, <- app_assoc. subst img. reflexivity.
  - unfold handleCapture, do_stopCamera, capturePhoto, stopCamera.
    rewrite Hv, Hs, Hact, Hctx. simpl.
    apply N.eqb_neq in Hw, Hh. rewrite Hw, Hh. simpl.
    rewrite Hs, Hv. simpl. subst img. reflexivity.
Qed.

Lemma handleCapture_eager_release_witness :
  fst (capturePhoto true [0; 0; 0; 255]%N (cameraManager camera_started))
  = Normal {| width := 1280; height := 720; data := [0; 0; 0; 255]%N |}
  /\ snd (handleCapture true [0; 0; 0; 255]%N camera_started)
     = [Ev_camera (Ev_drawImage preview);
        Ev_camera (Ev_track_stop back_track);
        Ev_camera (Ev_set_srcObject preview None);
        Ev_render (CapturedView {| width := 1280; height := 720;
                                   data := [0; 0; 0; 255]%N |})].
Proof.
  split; [reflexivity|].
  destruct (handleCapture_eager_release true [0; 0; 0; 255]%N camera_started
              {| width := 1280; height := 720; data := [0; 0; 0; 255]%N |}
              eq_refl)
    as (v & s & Hv & Hs & _ & Hevs & _).
  injection Hv as <-. injection Hs as <-. exact Hevs.
Defined.

(** ** Processing *)

Lemma ensure_initialized_fields (env : ProcessEnv) (a : OCRInterface) :
  cameraManager (fst (snd (ensure_initialized env a))) = cameraManager a
  /\ capturedImageData (fst (snd (ensure_initialized env a)))
     = capturedImageData a
  /\ lastResult (fst (snd (ensure_initialized env a))) = lastResult a
  /\ extractedNumbers (fst (snd (ensure_initialized env a)))
     = extractedNumbers a
  /\ isStartingCamera (fst (snd (ensure_initialized env a)))
     = isStartingCamera a
  /\ capturedLocation (fst (snd (ensure_initialized env a)))
     = capturedLocation a.
Proof.
  unfold ensure_initialized.
  destruct (isReady (ocrEngine a)); [repeat split|].
  destruct (initialize _ _ _) as [[r e] evs]. simpl.
  destruct (deliver_fields evs (set_ocrEngine e a))
    as (_ & Hcm & _ & Hi & Hr & Hn & Hf & Hl).
  repeat split; assumption.
Qed.

(** X18: processing touches neither the camera, nor the captured frame,
    nor the lock of the camera start, on any of its paths: in Results as
    in Error the frame is still held, and the camera is as the capture
    left it. *)
Theorem handleProcessOCR_preserves (env : ProcessEnv) (a : OCRInterface) :
  cameraManager (fst (fst (handleProcessOCR env a))) = cameraManager a
  /\ capturedImageData (fst (fst (handleProcessOCR env a)))
     = capturedImageData a
  /\ isStartingCamera (fst (fst (handleProcessOCR env a)))
     = isStartingCamera a.
Proof.
  unfold handleProcessOCR.
  destruct (capturedImageData a) as [img|] eqn:Himg;
    [|simpl; rewrite Himg; repeat split].
  simpl.
  destruct (getCaptureLocation (geolocation env)) as [locationPromise evs2].
  destruct (ensure_initialized_fields env
              (set_container (ProcessingView "Initializing OCR..." 0) a))
    as (Hcm & Hi & _ & _ & Hf & _).
  simpl in Hcm, Hi, Hf. rewrite Himg in Hi.
  destruct (ensure_initialized env _) as [[u|err] [a2 evs3]];
    simpl in Hcm, Hi, Hf.
  - destruct (negb (canvas_context2d env)); [simpl; auto|].
    destruct (recognizeText None (recognize_run env) (ocrEngine a2))
      as [[r|err] oevs];
      destruct (deliver_fields oevs a2) as (_ & Hcm' & _ & Hi' & _ & _ & Hf' & _).
    + destruct locationPromise as [l|]; simpl;
        repeat split; congruence.
    + simpl. repeat split; congruence.
  - simpl. auto.
Qed.

(** X19: a discarded frame is never processed.  After a reset, and
    after a retake even while the camera start it triggers is still in
    flight and the captured view still on display, a request to process
    ends in the error view for the missing frame; neither the location
    service nor the engine is called. *)
Theorem handleProcessOCR_after_discard
    (env : StartEnv) (penv : ProcessEnv) (a : OCRInterface) :
  handleProcessOCR penv (fst (fst (handleRetake env a)))
  = ((set_container (ErrorView "No image to process")
        (fst (fst (handleRetake env a))),
      [Ev_render (ErrorView "No image to process")]),
     Returned)
  /\ handleProcessOCR penv (fst (handleReset a))
     = ((set_container (ErrorView "No image to process")
           (fst (handleReset a)),
         [Ev_render (ErrorView "No image to process")]),
        Returned).
Proof.
  split.
  - unfold handleRetake, handleStartCamera_call. simpl.
    destruct (isStartingCamera a); reflexivity.
  - reflexivity.
Qed.

Lemma reportProgress_Forall (P : OCR.event -> Prop) (p : OCRProgress)
    (e : OCREngine) :
  (forall cb, P (Ev_progress cb p)) -> Forall P (reportProgress p e).
Proof.
  intros H. unfold reportProgress.
  destruct (onProgressCallback e); repeat constructor. apply H.
Qed.

Lemma relay_Forall (P : OCR.event -> Prop) (ms : list LoggerMessage)
    (e : OCREngine) :
  (forall cb p, P (Ev_progress cb p)) -> Forall P (relay ms e).
Proof.
  intros H. unfold relay.
  induction ms as [|m ms IH]; simpl; [constructor|].
  apply Forall_app. split; [|exact IH].
  unfold handleTesseractLogger. apply reportProgress_Forall.
  intros cb. apply H.
Qed.

(** Splits a statement about all events of an engine call into
    statements about the reports and about the calls into Tesseract. *)
Ltac engine_events :=
  repeat first
    [ apply Forall_nil
    | apply Forall_app; split
    | apply reportProgress_Forall; intros ?
    | apply relay_Forall; intros ? ?
    | apply Forall_cons ].

(** The engine calls the worker factory only in [initialize], and the
    worker's recognition only in [recognizeText]. *)
Lemma initialize_never_recognizes (cb : option ProgressCallback)
    (run : external_run Worker) (e : OCREngine) (w : Worker) :
  Forall (fun ev => ev <> Ev_recognize w) (snd (initialize cb run e)).
Proof.
  unfold initialize.
  destruct (isInitialized e
            && match worker e with Some _ => true | None => false end);
    [constructor|].
  destruct (settles run); simpl; engine_events; discriminate.
Qed.

Lemma recognizeText_never_creates (language : option string)
    (run : external_run RecognizeData) (e : OCREngine) :
  Forall (fun ev => ev <> Ev_createWorker)
    (snd (recognizeText language run e)).
Proof.
  unfold recognizeText, recognizeText_catch.
  destruct (worker e) as [w|]; [|constructor].
  destruct (isInitialized e); [|constructor].
  destruct (settles run) as [d|[fault|]].
  - destruct (match data_text d with [] => true | _ => false end
              || (List.length (trim (data_text d)) =? 0));
      simpl; engine_events; discriminate.
  - destruct (match name_of fault with
              | Some n => String.eqb n "NO_TEXT_FOUND"
              | None => false
              end);
      simpl; engine_events; discriminate.
  - simpl; engine_events; discriminate.
Qed.

Lemma getCaptureLocation_events (geo : Geolocation) (ev : event) :
  In ev (snd (getCaptureLocation geo)) -> ev = Ev_getCurrentPosition 5000 0.
Proof.
  destruct geo; simpl; intros H; destruct H as [H|[]] || destruct H; auto.
Qed.

Lemma initialize_fails (cb : option ProgressCallback)
    (run : external_run Worker) (e : OCREngine) (fault : rejection) :
  isReady e = false ->
  settles run = Throw fault ->
  fst (fst (initialize cb run e)) = Throw (OCR.createError INITIALIZATION_FAILED)
  /\ isReady (snd (fst (initialize cb run e))) = false.
Proof.
  intros Hnot Hrun. unfold isReady in Hnot.
  unfold initialize. rewrite Hnot, Hrun. simpl. auto.
Qed.

Lemma ensure_initialized_fails (env : ProcessEnv) (a : OCRInterface)
    (fault : rejection) :
  isReady (ocrEngine a) = false ->
  settles (createWorker_run env) = Throw fault ->
  exists a2 oevs,
    ensure_initialized env a
    = (Throw (OCR.createError INITIALIZATION_FAILED), (a2, map Ev_ocr oevs))
    /\ isReady (ocrEngine a2) = false
    /\ lastResult a2 = lastResult a
    /\ forall w, Forall (fun ev => ev <> Ev_recognize w) oevs.
Proof.
  intros Hnot Hrun.
  unfold ensure_initialized. rewrite Hnot.
  destruct (initialize_fails (Some updateProgress_callback)
              (createWorker_run env) (ocrEngine a) fault Hnot Hrun)
    as [Hthrow Hstill].
  pose proof (initialize_never_recognizes (Some updateProgress_callback)
                (createWorker_run env) (ocrEngine a)) as Hnever.
  destruct (initialize (Some updateProgress_callback) (createWorker_run env)
              (ocrEngine a)) as [[r e] oevs].
  simpl in *. subst r.
  destruct (deliver_fields oevs (set_ocrEngine e a))
    as (_ & _ & He & _ & Hr & _).
  exists (deliver oevs (set_ocrEngine e a)), oevs.
  rewrite He, Hr. simpl. auto.
Qed.

(** X20: when the engine cannot be started, processing ends in the error
    view with the message for a failed initialisation, whatever the
    location service does; the worker is never asked to recognise, the
    result of an earlier session is not touched, and the engine is still
    not ready, so that the next attempt starts it again. *)
Theorem handleProcessOCR_initialization_failed
    (env : ProcessEnv) (a : OCRInterface) (img : ImageData)
    (fault : rejection) :
  capturedImageData a = Some img ->
  isReady (ocrEngine a) = false ->
  settles (createWorker_run env) = Throw fault ->
  container (fst (fst (handleProcessOCR env a)))
  = ErrorView (ERROR_MESSAGES (OCR_error INITIALIZATION_FAILED))
  /\ snd (handleProcessOCR env a) = Returned
  /\ lastResult (fst (fst (handleProcessOCR env a))) = lastResult a
  /\ isReady (ocrEngine (fst (fst (handleProcessOCR env a)))) = false
  /\ (forall w,
         ~ In (Ev_ocr (Ev_recognize w)) (snd (fst (handleProcessOCR env a)))).
Proof.
  intros Himg Hnot Hrun.
  unfold handleProcessOCR. rewrite Himg. simpl.
  destruct (getCaptureLocation (geolocation env)) as [locationPromise evs2]
    eqn:Hgeo.
  destruct (ensure_initialized_fails env
              (set_container (ProcessingView "Initializing OCR..." 0) a)
              fault Hnot Hrun)
    as (a2 & oevs & -> & Hstill & Hlast & Hnever).
  simpl. repeat split; try assumption.
  intros w Hin.
  destruct Hin as [Hin|Hin]; [discriminate|].
  apply in_app_or in Hin. destruct Hin as [Hin|Hin].
  - pose proof (getCaptureLocation_events (geolocation env)
                  (Ev_ocr (Ev_recognize w))) as Hev.
    rewrite Hgeo in Hev. apply Hev in Hin. discriminate.
  - apply in_app_or in Hin. destruct Hin as [Hin|[Hin|[]]];
      [|discriminate].
    apply in_map_iff in Hin. destruct Hin as [oev [Heq Hin]].
    injection Heq as ->.
    specialize (Hnever w). rewrite Forall_forall in Hnever.
    apply (Hnever _ Hin). reflexivity.
Qed.

Lemma handleProcessOCR_initialization_failed_witness :
  capturedImageData photo_captured
  = Some {| width := 1280; height := 720; data := [0; 0; 0; 255]%N |}
  /\ isReady (ocrEngine photo_captured) = false
  /\ container
       (fst (fst (handleProcessOCR
                    {| geolocation := Geo_pending;
                       createWorker_run :=
                         {| logged := [];
                            settles := Throw (Thrown_String "no network") |};
                       canvas_context2d := true;
                       recognize_run := recognized "12345678" |}
                    photo_captured)))
     = ErrorView
         "Failed to initialize OCR. Please refresh the page and try again.".
Proof.
  split; [reflexivity|]. split; [reflexivity|].
  apply (proj1 (handleProcessOCR_initialization_failed
                  {| geolocation := Geo_pending;
                     createWorker_run :=
                       {| logged := [];
                          settles := Throw (Thrown_String "no network") |};
                     canvas_context2d := true;
                     recognize_run := recognized "12345678" |}
                  photo_captured
                  {| width := 1280; height := 720;
                     data := [0; 0; 0; 255]%N |}
                  (Thrown_String "no network")
                  eq_refl eq_refl eq_refl)).
Defined.

(** The kind of failure of a recognition on a ready engine. *)
Lemma recognizeText_fails (language : option string)
    (run : external_run RecognizeData) (e : OCREngine) :
  isReady e = true ->
  (forall d,
      settles run = Normal d ->
      forallb is_white_space (data_text d) = true ->
      fst (recognizeText language run e) = Throw (OCR.createError NO_TEXT_FOUND))
  /\ (forall fault : thrown,
         settles run = Throw (Rejected fault) ->
         fst (recognizeText language run e)
         = if match name_of fault with
              | Some n => String.eqb n "NO_TEXT_FOUND"
              | None => false
              end
           then Throw fault
           else Throw (OCR.createError PROCESSING_FAILED))
  /\ (settles run = Throw Rejected_nullish ->
      fst (recognizeText language run e) = Throw (TypeError_of_read "name")).
Proof.
  intros Hready.
  destruct (isReady_fields e Hready) as [w [Hw Hinit]].
  unfold recognizeText. rewrite Hw, Hinit. split; [|split].
  - intros d Hrun Hblank. rewrite Hrun, (blank_test _ Hblank). reflexivity.
  - intros fault Hrun. rewrite Hrun. unfold recognizeText_catch.
    destruct (match name_of fault with
              | Some n => String.eqb n "NO_TEXT_FOUND"
              | None => false
              end); reflexivity.
  - intros Hrun. rewrite Hrun. reflexivity.
Qed.

Lemma ensure_initialized_succeeds (env : ProcessEnv) (a : OCRInterface) :
  isReady (ocrEngine a) = true
  \/ (exists w, settles (createWorker_run env) = Normal w) ->
  exists a2 evs,
    ensure_initialized env a = (Normal tt, (a2, evs))
    /\ isReady (ocrEngine a2) = true
    /\ lastResult a2 = lastResult a.
Proof.
  intros H.
  destruct (ensure_initialized_ready env a H) as [a2 [evs [Heq Hready]]].
  exists a2, evs. repeat split; try assumption.
  destruct (ensure_initialized_fields env a) as (_ & _ & Hr & _).
  rewrite Heq in Hr. exact Hr.
Qed.

(** X21: what the user is told when recognition fails.  With a frame
    captured and the engine ready or started, processing ends in the
    error view, whatever the location service does, and the result of an
    earlier session is not touched.  The message is the generic
    processing message when the canvas gives no context, and the no-text
    message when the worker returns empty or white-space-only text.
    When the worker's promise is rejected, the message depends on what it
    is rejected with: the no-text message for an [Error] named
    [NO_TEXT_FOUND]; the generic processing message for any other object
    of that name, which is thrown on by the engine but is no application
    error, and for [null] or [undefined], for which the engine fails
    with a [TypeError]; the processing-failed message for every other
    value. *)
Theorem handleProcessOCR_recognition_failed
    (env : ProcessEnv) (a : OCRInterface) (img : ImageData) :
  capturedImageData a = Some img ->
  isReady (ocrEngine a) = true
  \/ (exists w, settles (createWorker_run env) = Normal w) ->
  (canvas_context2d env = false ->
   container (fst (fst (handleProcessOCR env a)))
   = ErrorView "OCR processing failed"
   /\ snd (handleProcessOCR env a) = Returned
   /\ lastResult (fst (fst (handleProcessOCR env a))) = lastResult a)
  /\ (canvas_context2d env = true ->
      forall d,
        settles (recognize_run env) = Normal d ->
        forallb is_white_space (data_text d) = true ->
        container (fst (fst (handleProcessOCR env a)))
        = ErrorView (ERROR_MESSAGES (OCR_error NO_TEXT_FOUND))
        /\ snd (handleProcessOCR env a) = Returned
        /\ lastResult (fst (fst (handleProcessOCR env a))) = lastResult a)
  /\ (canvas_context2d env = true ->
      forall fault,
        settles (recognize_run env) = Throw fault ->
        container (fst (fst (handleProcessOCR env a)))
        = ErrorView
            match fault with
            | Rejected (Thrown_Error n _) =>
                if String.eqb n "NO_TEXT_FOUND"
                then ERROR_MESSAGES (OCR_error NO_TEXT_FOUND)
                else ERROR_MESSAGES (OCR_error PROCESSING_FAILED)
            | Rejected (Thrown_Object n) =>
                if String.eqb n "NO_TEXT_FOUND"
                then "OCR processing failed"
                else ERROR_MESSAGES (OCR_error PROCESSING_FAILED)
            | Rejected (Thrown_String _) =>
                ERROR_MESSAGES (OCR_error PROCESSING_FAILED)
            | Rejected Thrown_Other =>
                ERROR_MESSAGES (OCR_error PROCESSING_FAILED)
            | Rejected_nullish => "OCR processing failed"
            end
        /\ snd (handleProcessOCR env a) = Returned
        /\ lastResult (fst (fst (handleProcessOCR env a))) = lastResult a).
Proof.
  intros Himg Hengine.
  unfold handleProcessOCR. rewrite Himg. simpl.
  destruct (getCaptureLocation (geolocation env)) as [locationPromise evs2].
  destruct (ensure_initialized_succeeds env
              (set_container (ProcessingView "Initializing OCR..." 0) a)
              Hengine)
    as (a2 & evs3 & -> & Hready & Hlast).
  simpl in Hlast.
  destruct (recognizeText_fails None (recognize_run env) (ocrEngine a2) Hready)
    as (Hblank & Hfault & Hnullish).
  split; [|split].
  - intros ->. simpl. auto.
  - intros -> d Hrun Hws. simpl.
    specialize (Hblank d Hrun Hws).
    destruct (recognizeText None (recognize_run env) (ocrEngine a2))
      as [r oevs].
    simpl in Hblank. subst r.
    destruct (deliver_fields oevs a2) as (_ & _ & _ & _ & Hr & _).
    simpl. repeat split. congruence.
  - intros -> fault Hrun. simpl.
    destruct fault as [fault|].
    + specialize (Hfault fault Hrun).
      destruct (recognizeText None (recognize_run env) (ocrEngine a2))
        as [r oevs].
      simpl in Hfault. subst r.
      destruct (deliver_fields oevs a2) as (_ & _ & _ & _ & Hr & _).
      destruct fault as [n m|s|n|]; simpl.
      * destruct (String.eqb_spec n "NO_TEXT_FOUND") as [->|Hn]; simpl;
          repeat split; congruence.
      * repeat split; congruence.
      * destruct (String.eqb_spec n "NO_TEXT_FOUND") as [->|Hn]; simpl;
          repeat split; congruence.
      * repeat split; congruence.
    + specialize (Hnullish Hrun).
      destruct (recognizeText None (recognize_run env) (ocrEngine a2))
        as [r oevs].
      simpl in Hnullish. subst r.
      destruct (deliver_fields oevs a2) as (_ & _ & _ & _ & Hr & _).
      simpl. repeat split; congruence.
Qed.

Lemma handleProcessOCR_recognition_failed_witness :
  capturedImageData photo_captured
  = Some {| width := 1280; height := 720; data := [0; 0; 0; 255]%N |}
  /\ container
       (fst (fst (handleProcessOCR
                    (env_process Geo_error (recognized "  "))
                    photo_captured)))
     = ErrorView
         "No text found in the image. Try capturing a clearer image with better lighting and visible text."
  /\ container
       (fst (fst (handleProcessOCR
                    (env_process Geo_error
                       {| logged := []; settles := Throw Rejected_nullish |})
                    photo_captured)))
     = ErrorView "OCR processing failed".
Proof.
  split; [reflexivity|]. split.
  - destruct (handleProcessOCR_recognition_failed
                (env_process Geo_error (recognized "  ")) photo_captured
                {| width := 1280; height := 720; data := [0; 0; 0; 255]%N |}
                eq_refl
                (or_intror (ex_intro _ tesseract eq_refl)))
      as (_ & Hblank & _).
    apply (Hblank eq_refl
             {| data_text := of_string "  "; data_confidence := (87 # 1)%Q |}
             eq_refl eq_refl).
  - destruct (handleProcessOCR_recognition_failed
                (env_process Geo_error
                   {| logged := []; settles := Throw Rejected_nullish |})
                photo_captured
                {| width := 1280; height := 720; data := [0; 0; 0; 255]%N |}
                eq_refl
                (or_intror (ex_intro _ tesseract eq_refl)))
      as (_ & _ & Hfault).
    apply (Hfault eq_refl Rejected_nullish eq_refl).
Defined.

(** After the engine start-up, processing leaves the engine alone. *)
Lemma handleProcessOCR_ocrEngine (env : ProcessEnv) (a : OCRInterface)
    (img : ImageData) :
  capturedImageData a = Some img ->
  ocrEngine (fst (fst (handleProcessOCR env a)))
  = ocrEngine
      (fst (snd (ensure_initialized env
                   (set_container (ProcessingView "Initializing OCR..." 0) a)))).
Proof.
  intros Himg. unfold handleProcessOCR. rewrite Himg. simpl.
  destruct (getCaptureLocation (geolocation env)) as [locationPromise evs2].
  destruct (ensure_initialized env _) as [[u|err] [a2 evs3]]; simpl;
    [|reflexivity].
  destruct (negb (canvas_context2d env)); [reflexivity|].
  destruct (recognizeText None (recognize_run env) (ocrEngine a2))
    as [[r|err] oevs];
    destruct (deliver_fields oevs a2) as (_ & _ & He & _).
  - destruct locationPromise as [l|]; simpl; exact He.
  - simpl. exact He.
Qed.

(** X22: the worker is created lazily and kept.  On a ready engine
    processing creates no worker and leaves the engine as it is; on an
    engine that is not ready it creates one, and when that succeeds the
    engine is ready with that worker, reporting to the workflow, when
    processing returns, whether recognition then succeeds or not. *)
Theorem handleProcessOCR_engine_lifecycle
    (env : ProcessEnv) (a : OCRInterface) (img : ImageData) :
  capturedImageData a = Some img ->
  (isReady (ocrEngine a) = true ->
   ocrEngine (fst (fst (handleProcessOCR env a))) = ocrEngine a
   /\ ~ In (Ev_ocr Ev_createWorker) (snd (fst (handleProcessOCR env a))))
  /\ (isReady (ocrEngine a) = false ->
      In (Ev_ocr Ev_createWorker) (snd (fst (handleProcessOCR env a)))
      /\ forall w,
           settles (createWorker_run env) = Normal w ->
           ocrEngine (fst (fst (handleProcessOCR env a)))
           = {| worker := Some w; isInitialized := true;
                onProgressCallback := Some updateProgress_callback |}).
Proof.
  intros Himg.
  rewrite (handleProcessOCR_ocrEngine env a img Himg).
  split.
  - intros Hready. split.
    + unfold ensure_initialized. simpl. rewrite Hready. reflexivity.
    + unfold handleProcessOCR. rewrite Himg. simpl.
      destruct (getCaptureLocation (geolocation env))
        as [locationPromise evs2] eqn:Hgeo.
      unfold ensure_initialized. simpl. rewrite Hready. simpl.
      assert (Hevs2 : ~ In (Ev_ocr Ev_createWorker) evs2).
      { intros Hin.
        pose proof (getCaptureLocation_events (geolocation env)
                      (Ev_ocr Ev_createWorker)) as Hev.
        rewrite Hgeo in Hev. apply Hev in Hin. discriminate. }
      assert (Hrec : forall oevs,
                 oevs = snd (recognizeText None (recognize_run env)
                               (ocrEngine a)) ->
                 ~ In (Ev_ocr Ev_createWorker) (map Ev_ocr oevs)).
      { intros oevs -> Hin.
        apply in_map_iff in Hin. destruct Hin as [oev [Heq Hin]].
        injection Heq as ->.
        pose proof (recognizeText_never_creates None (recognize_run env)
                      (ocrEngine a)) as Hnever.
        rewrite Forall_forall in Hnever. apply (Hnever _ Hin). reflexivity. }
      destruct (negb (canvas_context2d env)).
      * simpl. intros [H|H]; [discriminate|].
        apply in_app_or in H. destruct H as [H|[H|[]]];
          [contradiction | discriminate].
      * destruct (recognizeText None (recognize_run env) (ocrEngine a))
          as [[r|err] oevs]; specialize (Hrec oevs eq_refl).
        -- destruct locationPromise as [l|]; simpl;
             intros [H|H]; try discriminate;
             apply in_app_or in H; destruct H as [H|H]; try contradiction;
             apply in_app_or in H; destruct H as [H|H]; try contradiction;
             destruct H as [H|[]]; discriminate.
        -- simpl. intros [H|H]; [discriminate|].
           apply in_app_or in H; destruct H as [H|H]; [contradiction|].
           apply in_app_or in H; destruct H as [H|H]; [contradiction|].
           destruct H as [H|[]]; discriminate.
  - intros Hnot. split.
    + unfold handleProcessOCR. rewrite Himg. simpl.
      destruct (getCaptureLocation (geolocation env))
        as [locationPromise evs2].
      assert (Hinit : In (Ev_ocr Ev_createWorker)
                        (snd (snd (ensure_initialized env
                                     (set_container
                                        (ProcessingView "Initializing OCR..." 0)
                                        a))))).
      { unfold ensure_initialized. simpl. rewrite Hnot.
        unfold initialize. unfold isReady in Hnot. rewrite Hnot.
        destruct (settles (createWorker_run env)); simpl;
          right; left; reflexivity. }
      destruct (ensure_initialized env _) as [[u|err] [a2 evs3]];
        simpl in Hinit.
      * destruct (negb (canvas_context2d env)).
        -- simpl. right. apply in_or_app. right.
           apply in_or_app. left. exact Hinit.
        -- destruct (recognizeText None (recognize_run env) (ocrEngine a2))
             as [[r|err] oevs].
           ++ destruct locationPromise as [l|]; simpl; right;
                apply in_or_app; right; apply in_or_app; left; exact Hinit.
           ++ simpl. right. apply in_or_app. right.
              apply in_or_app. left. exact Hinit.
      * simpl. right. apply in_or_app. right.
        apply in_or_app. left. exact Hinit.
    + intros w Hrun.
      unfold ensure_initialized. simpl. rewrite Hnot.
      unfold initialize. unfold isReady in Hnot. rewrite Hnot, Hrun.
      cbv zeta. simpl fst. simpl snd.
      match goal with
      | |- context [deliver ?evs ?x] =>
          destruct (deliver_fields evs x) as (_ & _ & He & _)
      end.
      rewrite He. simpl.
      destruct (isInitialized (ocrEngine a)); reflexivity.
Qed.

Lemma handleProcessOCR_engine_lifecycle_witness :
  capturedImageData photo_captured
  = Some {| width := 1280; height := 720; data := [0; 0; 0; 255]%N |}
  /\ isReady (ocrEngine results_shown) = true
  /\ capturedImageData results_shown
     = Some {| width := 1280; height := 720; data := [0; 0; 0; 255]%N |}
  /\ ocrEngine (fst (fst (handleProcessOCR
                            (env_process Geo_error (recognized "87654321"))
                            results_shown)))
     = ocrEngine results_shown.
Proof.
  split; [reflexivity|]. split; [reflexivity|]. split; [reflexivity|].
  destruct (handleProcessOCR_engine_lifecycle
              (env_process Geo_error (recognized "87654321")) results_shown
              {| width := 1280; height := 720; data := [0; 0; 0; 255]%N |}
              eq_refl)
    as [Hready _].
  apply (Hready eq_refl).
Defined.

(** What a successful recognition returns. *)
Lemma recognizeText_result (language : option string)
    (run : external_run RecognizeData) (e : OCREngine) (r : OCRResult) :
  fst (recognizeText language run e) = Normal r ->
  isReady e = true
  /\ exists d,
       settles run = Normal d
       /\ text r = data_text d
       /\ confidence r = data_confidence d
       /\ trim (data_text d) <> [].
Proof.
  unfold recognizeText, isReady.
  destruct (worker e) as [w|]; [|discriminate].
  destruct (isInitialized e); [|discriminate].
  destruct (settles run) as [d|fault].
  - destruct (match data_text d with [] => true | _ => false end
              || (List.length (trim (data_text d)) =? 0)) eqn:Hblank.
    + unfold recognizeText_catch. simpl. discriminate.
    + simpl. intros H. injection H as <-.
      split; [reflexivity|]. exists d. repeat split.
      apply orb_false_elim in Hblank. destruct Hblank as [_ Hlen].
      intros Hnil. rewrite Hnil in Hlen. discriminate.
  - unfold recognizeText_catch.
    destruct fault as [fault|]; [|discriminate].
    destruct (match name_of fault with
              | Some n => String.eqb n "NO_TEXT_FOUND"
              | None => false
              end); discriminate.
Qed.

(** X23: what the Results stage holds.  Whenever processing ends in
    Results, the result kept is the one on display, its text is not
    blank, the tokens kept are those extracted from that text and are
    the ones on display, the location on display is the one kept, the
    frame is still held, the engine is ready, and the method has
    returned. *)
Theorem handleProcessOCR_results (env : ProcessEnv) (a : OCRInterface) :
  stage (fst (fst (handleProcessOCR env a))) = Results ->
  exists r,
    lastResult (fst (fst (handleProcessOCR env a))) = Some r
    /\ trim (text r) <> []
    /\ extractedNumbers (fst (fst (handleProcessOCR env a)))
       = extractNumberSequences (text r)
    /\ container (fst (fst (handleProcessOCR env a)))
       = ResultsView r
           (extractedNumbers (fst (fst (handleProcessOCR env a))))
           (capturedLocation (fst (fst (handleProcessOCR env a))))
    /\ capturedLocation (fst (fst (handleProcessOCR env a)))
       = location_of (geolocation env)
    /\ capturedImageData (fst (fst (handleProcessOCR env a))) <> None
    /\ isReady (ocrEngine (fst (fst (handleProcessOCR env a)))) = true
    /\ snd (handleProcessOCR env a) = Returned.
Proof.
  unfold handleProcessOCR.
  destruct (capturedImageData a) as [img|] eqn:Himg; [|discriminate].
  pose proof (ensure_initialized_stage env
                (set_container (ProcessingView "Initializing OCR..." 0) a)
                eq_refl) as Hstage.
  destruct (ensure_initialized_fields env
              (set_container (ProcessingView "Initializing OCR..." 0) a))
    as (_ & Hi & _).
  simpl in Hi. rewrite Himg in Hi.
  destruct (geolocation env) as [|[lat lon]| |]; simpl.
  all: destruct (ensure_initialized env _) as [[u|err] [a2 evs3]];
    simpl in Hstage, Hi; [|discriminate].
  all: destruct (negb (canvas_context2d env)); [discriminate|].
  all: pose proof (recognizeText_result None (recognize_run env)
                     (ocrEngine a2)) as Hres.
  all: destruct (recognizeText None (recognize_run env) (ocrEngine a2))
    as [[r|err] oevs]; [|discriminate].
  all: destruct (Hres r eq_refl) as [Hready [d (_ & Htext & _ & Hnonblank)]].
  all: destruct (deliver_fields oevs a2) as (Hs & _ & He & Hi' & _).
  all: simpl.
  all: try (intros _; exists r; rewrite Htext, He;
            repeat split; try assumption; congruence).
  intros Hres'. specialize (Hs Hstage).
  unfold stage in Hs, Hres'. simpl in Hres'. congruence.
Qed.

Lemma handleProcessOCR_results_witness :
  stage (fst (fst (handleProcessOCR
                     (env_process (Geo_position stockholm)
                        (recognized "order 12 34 5678 thanks"))
                     photo_captured)))
  = Results
  /\ exists r,
       lastResult results_shown = Some r
       /\ extractedNumbers results_shown = extractNumberSequences (text r).
Proof.
  split; [reflexivity|].
  destruct (handleProcessOCR_results
              (env_process (Geo_position stockholm)
                 (recognized "order 12 34 5678 thanks"))
              photo_captured eq_refl)
    as [r (Hr & _ & Hn & _)].
  exists r. split; [exact Hr | exact Hn].
Defined.

Lemma deliver_app (evs1 evs2 : list OCR.event) (a : OCRInterface) :
  deliver (evs1 ++ evs2) a = deliver evs2 (deliver evs1 a).
Proof. unfold deliver. apply fold_left_app. Qed.

(** X24: progress reports touch the document on display only.  Whatever
    is on display, delivering the reports of the engine changes no field
    of the workflow: camera, engine, frame, result, tokens, location and
    start lock stay as they are.  While the processing view is on
    display, the reports keep it on display, and what it shows
    afterwards is the message and the percentage of the last report
    delivered; events of the engine that are no reports change
    nothing. *)
Theorem deliver_changes_display_only (evs : list OCR.event) (a : OCRInterface) :
  (forall v, set_container v (deliver evs a) = set_container v a)
  /\ (stage a = Processing ->
      stage (deliver evs a) = Processing
      /\ forall before cb p,
           evs = before ++ [Ev_progress cb p] ->
           container (deliver evs a) = ProcessingView (message p) (progress p))
  /\ (Forall (fun ev => forall cb p, ev <> Ev_progress cb p) evs ->
      deliver evs a = a).
Proof.
  split; [|split].
  - destruct (deliver_fields evs a)
      as (Hs & Hcm & He & Hi & Hr & Hn & Hf & Hl).
    intros v. unfold set_container. congruence.
  - intros Hstage. split; [apply deliver_fields; exact Hstage|].
    intros before cb p ->. rewrite deliver_app.
    destruct (deliver_fields before a) as (Hs' & _).
    specialize (Hs' Hstage). unfold stage in Hs'.
    unfold deliver at 1. simpl. unfold updateProgress.
    destruct (container (deliver before a)); try discriminate.
    reflexivity.
  - intros Hnone. unfold deliver.
    induction Hnone as [|ev evs Hev _ IH]; simpl; [reflexivity|].
    destruct ev as [cb p| |w|w]; try exact IH.
    exfalso. apply (Hev cb p). reflexivity.
Qed.

Lemma deliver_changes_display_only_witness :
  stage (fst (renderProcessingView photo_captured)) = Processing
  /\ container
       (deliver [Ev_progress updateProgress_callback
                   {| status := recognizing; progress := 0;
                      message := "Processing image..." |};
                 Ev_recognize tesseract;
                 Ev_progress updateProgress_callback
                   {| status := recognizing; progress := 50;
                      message := "Extracting text... 50%" |}]
          (fst (renderProcessingView photo_captured)))
     = ProcessingView "Extracting text... 50%" 50.
Proof.
  split; [reflexivity|].
  apply (proj2 (proj1 (proj2 (deliver_changes_display_only _
                                (fst (renderProcessingView photo_captured))))
                  eq_refl)
           [Ev_progress updateProgress_callback
              {| status := recognizing; progress := 0;
                 message := "Processing image..." |};
            Ev_recognize tesseract]
           updateProgress_callback
           {| status := recognizing; progress := 50;
              message := "Extracting text... 50%" |}
           eq_refl).
Defined.

(* ===================================================================== *)
(** * Further properties of the number extractor *)
(* ===================================================================== *)









Lemma emit_length (run_rev m : jsstring) :
  In m (emit run_rev) -> List.length m = List.length run_rev.
Proof.
  unfold emit. destruct (8 <=? List.length run_rev); simpl.
  - intros [<-|[]]. apply length_rev.
  - intros [].
Qed.

(** A match is no longer than what has been scanned. *)
Lemma scan_matches_bounded (text run_rev m : jsstring) :
  In m (scan run_rev text) ->
  List.length m <= List.length run_rev + List.length text.
Proof.
  revert run_rev. induction text as [|c rest IH]; intros run_rev Hm;
    simpl in Hm.
  - apply emit_length in Hm. lia.
  - destruct (in_class c).
    + apply IH in Hm. simpl in *. lia.
    + apply in_app_or in Hm. destruct Hm as [Hm|Hm].
      * apply emit_length in Hm. lia.
      * apply IH in Hm. simpl in *. lia.
Qed.

(** X26: texts from which nothing is extracted.  A text of fewer than
    eight characters, a text without any digit, and a text without any
    character of the class yield the empty list. *)
Theorem extractNumberSequences_nothing (text : jsstring) :
  (List.length text < 8 -> extractNumberSequences text = [])
  /\ (existsb is_digit text = false -> extractNumberSequences text = [])
  /\ (existsb in_class text = false -> extractNumberSequences text = []).
Proof.
  assert (Hnone : (forall tok, ~ In tok (extractNumberSequences text)) ->
                  extractNumberSequences text = []).
  { destruct (extractNumberSequences text) as [|tok l]; [reflexivity|].
    intros H. destruct (H tok). left. reflexivity. }
  split; [|split]; intros H; apply Hnone; intros tok Hin;
    destruct (extractNumberSequences_tokens text tok Hin)
      as (Hdigit & _ & run & Hrun & ->).
  - pose proof (scan_matches_length text [] run Hrun).
    pose proof (scan_matches_bounded text [] run Hrun).
    simpl in *. lia.
  - unfold contains_digit in Hdigit. apply existsb_exists in Hdigit.
    destruct Hdigit as [c [Hc Hd]].
    apply trim_incl in Hc. apply (scan_matches_incl text [] run Hrun) in Hc.
    simpl in Hc.
    assert (Hex : existsb is_digit text = true)
      by (apply existsb_exists; exists c; auto).
    congruence.
  - unfold contains_digit in Hdigit. apply existsb_exists in Hdigit.
    destruct Hdigit as [c [Hc Hd]].
    apply trim_incl in Hc. apply (scan_matches_incl text [] run Hrun) in Hc.
    simpl in Hc.
    assert (Hex : existsb in_class text = true).
    { apply existsb_exists. exists c. split; [exact Hc|].
      unfold in_class. rewrite Hd. reflexivity. }
    congruence.
Qed.

Lemma extractNumberSequences_nothing_witness :
  List.length (of_string "1234567") < 8
  /\ extractNumberSequences (of_string "1234567") = [].
Proof.
  assert (H : List.length (of_string "1234567") < 8) by (simpl; lia).
  split; [exact H|].
  apply (proj1 (extractNumberSequences_nothing (of_string "1234567")) H).
Defined.

(** X27: the extraction works run by run.  A character outside the class
    cuts the text in two parts that are extracted independently, the
    tokens of the first part coming first: tokens are neither merged
    across such a character, nor reordered, nor deduplicated. *)
Theorem extractNumberSequences_separator
    (before after : jsstring) (c : code_unit) :
  in_class c = false ->
  extractNumberSequences (before ++ c :: after)
  = extractNumberSequences before ++ extractNumberSequences after.
Proof.
  intros Hc.
  rewrite !extractNumberSequences_unfold.
  rewrite (scan_separator before after [] c Hc).
  rewrite map_app, !filter_app. reflexivity.
Qed.

Lemma extractNumberSequences_separator_witness :
  in_class 120%N = false
  /\ extractNumberSequences
       (of_string "12345678" ++ 120%N :: of_string "12345678")
     = [of_string "12345678"; of_string "12345678"].
Proof.
  assert (H : in_class 120%N = false) by reflexivity.
  split; [exact H|].
  exact (eq_trans
           (extractNumberSequences_separator
              (of_string "12345678") (of_string "12345678") 120%N H)
           eq_refl).
Defined.

(* ===================================================================== *)
(** * Further properties of the workflow: clipboard and shutdown *)
(* ===================================================================== *)

(** X28: copying a token.  Outside the bounds of the token list the
    handler does nothing.  Within them it hands the clipboard the token
    at that position, unchanged, and nothing else; a check mark follows
    exactly when the write succeeds and the chip of that position is on
    display, and a failed write is never reported by an alert.  Without
    a clipboard nothing is written. *)
Theorem handleCopyNumber_writes
    (index : Z) (clipboard : option (completion unit)) (a : OCRInterface) :
  ((index < 0 \/ Z.of_nat (List.length (extractedNumbers a)) <= index)%Z ->
   handleCopyNumber index clipboard a = [])
  /\ ((0 <= index < Z.of_nat (List.length (extractedNumbers a)))%Z ->
      exists number,
        nth_error (extractedNumbers a) (Z.to_nat index) = Some number
        /\ handleCopyNumber index clipboard a
           = match clipboard with
             | None => []
             | Some (Normal _) =>
                 if has_button (Copy_number_button index) a
                 then [Ev_writeText number;
                       Ev_feedback (Copy_number_button index)]
                 else [Ev_writeText number]
             | Some (Throw _) => [Ev_writeText number]
             end).
Proof.
  unfold handleCopyNumber. split.
  - intros [H|H].
    + apply Z.ltb_lt in H. rewrite H. reflexivity.
    + apply Z.leb_le in H. rewrite H, orb_true_r. reflexivity.
  - intros [H0 H1].
    assert (Hlt : (index <? 0)%Z = false) by (apply Z.ltb_ge; exact H0).
    assert (Hle : (Z.of_nat (List.length (extractedNumbers a)) <=? index)%Z
                  = false) by (apply Z.leb_gt; exact H1).
    rewrite Hlt, Hle. simpl.
    destruct (nth_error (extractedNumbers a) (Z.to_nat index))
      as [number|] eqn:Hnth.
    + exists number. split; [reflexivity|].
      destruct clipboard as [[u|err]|]; reflexivity.
    + apply nth_error_None in Hnth. lia.
Qed.

Lemma handleCopyNumber_writes_witness :
  (0 <= 0 < Z.of_nat (List.length (extractedNumbers results_shown)))%Z
  /\ handleCopyNumber 0 (Some (Normal tt)) results_shown
     = [Ev_writeText (of_string "12 34 5678");
        Ev_feedback (Copy_number_button 0)].
Proof.
  assert (H : (0 <= 0 < Z.of_nat (List.length
                                    (extractedNumbers results_shown)))%Z)
    by (simpl; lia).
  split; [exact H|].
  destruct (proj2 (handleCopyNumber_writes 0 (Some (Normal tt)) results_shown) H)
    as [number [Hnth Heq]].
  rewrite Heq. injection Hnth as <-. reflexivity.
Defined.

(** Copying the text.  Without a result the handler does nothing.
    With one it hands the clipboard the whole recognised text, unchanged,
    whatever was extracted from it; a check mark follows when the write
    succeeds and the results are on display; when the write fails, or
    there is no clipboard, the user is alerted. *)
Lemma handleCopyText_writes
    (clipboard : option (completion unit)) (a : OCRInterface) :
  (lastResult a = None -> handleCopyText clipboard a = [])
  /\ (forall r,
         lastResult a = Some r ->
         handleCopyText clipboard a
         = match clipboard with
           | None => [Ev_alert "Failed to copy text to clipboard"]
           | Some (Normal _) =>
               if has_button Copy_text_button a
               then [Ev_writeText (text r); Ev_feedback Copy_text_button]
               else [Ev_writeText (text r)]
           | Some (Throw _) =>
               [Ev_writeText (text r);
                Ev_alert "Failed to copy text to clipboard"]
           end).
Proof.
  unfold handleCopyText. split.
  - intros ->. reflexivity.
  - intros r ->.
    destruct clipboard as [[u|err]|]; reflexivity.
Qed.

Lemma handleCopyText_writes_witness :
  lastResult (fst (handleReset results_shown)) = None
  /\ handleCopyText (Some (Normal tt)) (fst (handleReset results_shown)) = [].
Proof.
  split; [reflexivity|].
  apply (proj1 (handleCopyText_writes (Some (Normal tt))
                  (fst (handleReset results_shown)))).
  reflexivity.
Defined.

(** X29: shutdown.  [cleanup] stops the camera, then terminates the
    worker.  When the worker's termination succeeds, the camera manager
    is stopped and the engine is not ready, whatever the state was, and
    a second [cleanup] has no effect at all.  When it fails, the fault is
    passed on, with the camera stopped all the same. *)
Theorem cleanup_releases (a : OCRInterface) :
  (fst (cleanup (Normal tt) a) = Normal tt
   /\ cameraManager (fst (snd (cleanup (Normal tt) a)))
      = {| state := {| stream := None; isActive := false; deviceId := None |};
           videoElement := None |}
   /\ isReady (ocrEngine (fst (snd (cleanup (Normal tt) a)))) = false
   /\ snd (snd (cleanup (Normal tt) a))
      = map Ev_camera (snd (stopCamera (cameraManager a)))
        ++ match worker (ocrEngine a) with
           | Some w => [Ev_ocr (Ev_terminate w)]
           | None => []
           end
   /\ forall outcome,
        cleanup outcome (fst (snd (cleanup (Normal tt) a)))
        = (Normal tt, (fst (snd (cleanup (Normal tt) a)), [])))
  /\ (forall fault w,
         worker (ocrEngine a) = Some w ->
         fst (cleanup (Throw fault) a) = Throw fault
         /\ cameraManager (fst (snd (cleanup (Throw fault) a)))
            = {| state := {| stream := None; isActive := false;
                             deviceId := None |};
                 videoElement := None |}
         /\ ocrEngine (fst (snd (cleanup (Throw fault) a))) = ocrEngine a).
Proof.
  unfold cleanup, do_stopCamera.
  pose proof (stopCamera_returns (cameraManager a)) as Hret.
  pose proof (stopCamera_state (cameraManager a)) as Hstate.
  destruct (stopCamera (cameraManager a)) as [[r cm] evs].
  simpl in Hret, Hstate. subst r cm. simpl.
  unfold terminate, isReady.
  destruct (worker (ocrEngine a)) as [w|] eqn:Hw; simpl.
  - split.
    + repeat split.
    + intros fault w' Heq. injection Heq as <-. auto.
  - rewrite Hw. split.
    + repeat split;
        try apply andb_false_r;
        try (rewrite app_nil_r; reflexivity).
    + intros fault w' Heq. discriminate.
Qed.

Lemma cleanup_releases_witness :
  worker (ocrEngine results_shown) = Some tesseract
  /\ fst (cleanup (Throw Thrown_Other) results_shown) = Throw Thrown_Other.
Proof.
  split; [reflexivity|].
  apply (proj2 (cleanup_releases results_shown) Thrown_Other tesseract).
  reflexivity.
Defined.
